(** * whisper-web: transcript synchronisation and editing

    A shallow embedding of the state logic of
    [src/hooks/useTranscriber.ts] (the worker message handler and the
    transcript state it owns) and of the [Transcript] component
    (active-utterance lookup, keyboard handlers, edit commit).

    Numbers.  The JavaScript numbers that matter here are times in seconds
    and the playback speed.  They are only compared, or moved by 0.25 and
    clamped to [0.25, 4]; every such value is exactly representable in
    binary floating point, so they are embedded as rationals ([Q]).  NaN and
    the infinities are not represented. *)

From Stdlib Require Import QArith ZArith Lia Lqa.
From stdpp Require Import base option list strings gmap pretty.

Local Open Scope Z_scope.

(** ** JavaScript helpers *)

(** [x >= y] and [x < y] on numbers. *)
Definition num_ge (x y : Q) : bool := Qle_bool y x.
Definition num_lt (x y : Q) : bool := negb (Qle_bool y x).

(** [Math.min] and [Math.max] on two numbers. *)
Definition Math_min (x y : Q) : Q := if Qle_bool x y then x else y.
Definition Math_max (x y : Q) : Q := if Qle_bool x y then y else x.

(** [x || false] for an optional boolean field ([undefined], [false] give
    [false]). *)
Definition or_false (x : option bool) : bool :=
  match x with
  | Some true => true
  | _ => false
  end.

(** [!x] for [x : number | null]: [null] and [0] are falsy. *)
Definition js_not_index (x : option nat) : bool :=
  match x with
  | None => true
  | Some O => true
  | Some (S _) => false
  end.

(** [arr.join('')] on strings. *)
Definition join_empty (l : list string) : string := String.concat "" l.

(** ** Data model ([useTranscriber.ts]) *)

(** A chunk as the recognition engine sends it:
    [{ text, timestamp: [number, number | null] }]. *)
Module EngineChunk.
Record t := mk {
  text : string;
  timestamp : Q * option Q
}.
End EngineChunk.

(** [interface TranscriberChunk]; [isEdited] is an optional field. *)
Module TranscriberChunk.
Record t := mk {
  text : string;
  timestamp : Q * option Q;
  isEdited : option bool
}.
End TranscriberChunk.

(** [interface TranscriberData]; [error] is an optional field, [None] both
    when the key is missing and when it holds [undefined]. *)
Module TranscriberData.
Record t := mk {
  chunks : list TranscriberChunk.t;
  text : string;
  isBusy : bool;
  isModelLoading : bool;
  error : option string
}.
End TranscriberData.

(** [interface ProgressItem]. *)
Module ProgressItem.
Record t := mk {
  file : string;
  loaded : Q;
  progress : Q;
  total : Q;
  name : string;
  status : string
}.
End ProgressItem.

(** The messages of the worker, by their [status]. *)
Inductive Message : Type :=
| MsgProgress (file : string) (progress : Q)
| MsgUpdate (text : string) (chunks : list EngineChunk.t)
| MsgComplete (text : string) (chunks : list EngineChunk.t)
| MsgInitiate (item : ProgressItem.t)
| MsgReady
| MsgError (message : string)
| MsgDone (file : string)
| MsgOther (status : string).

(** The React state owned by [useTranscriber]. *)
Module Hook.
Record t := mk {
  transcript : option TranscriberData.t;
  isBusy : bool;
  isModelLoading : bool;
  progressItems : list ProgressItem.t
}.
End Hook.

(** ** The worker message handler *)

(** [prevTranscript?.chunks[i]?.isEdited] *)
Definition prevIsEdited (prevTranscript : option TranscriberData.t) (i : nat)
  : option bool :=
  match prevTranscript with
  | None => None
  | Some prev =>
      match TranscriberData.chunks prev !! i with
      | None => None
      | Some c => TranscriberChunk.isEdited c
      end
  end.

(** The [chunks.map((chunk, i) => ...)] of the "update" and "complete"
    cases. *)
Definition mergeChunks (prevTranscript : option TranscriberData.t)
    (chunks : list EngineChunk.t) : list TranscriberChunk.t :=
  imap (fun i chunk =>
          TranscriberChunk.mk
            (EngineChunk.text chunk)
            (EngineChunk.timestamp chunk)
            (Some (or_false (prevIsEdited prevTranscript i))))
       chunks.

Definition nl : string := String (Ascii.ascii_of_nat 10) EmptyString.

(** The text appended to the engine's message in the "error" case. *)
Definition errorHint : string :=
  " This is most likely because you are using Safari on an M1/M2 Mac. Please try again from Chrome, Firefox, or Edge."
  +:+ nl +:+ nl +:+ "If this is not the case, please file a bug report.".

(** [prev || { chunks: [], text: '' }] followed by the overriding keys of
    the "error" case. *)
Definition errorTranscript (prev : option TranscriberData.t) (message : string)
  : TranscriberData.t :=
  let base_chunks := match prev with Some p => TranscriberData.chunks p | None => [] end in
  let base_text := match prev with Some p => TranscriberData.text p | None => EmptyString end in
  TranscriberData.mk base_chunks base_text false false (Some (message +:+ errorHint)).

(** The callback passed to [useWorker]. *)
Definition onWorkerMessage (message : Message) (h : Hook.t) : Hook.t :=
  match message with
  | MsgProgress file progress =>
      Hook.mk (Hook.transcript h) (Hook.isBusy h) (Hook.isModelLoading h)
        (map (fun item =>
                if String.eqb (ProgressItem.file item) file
                then ProgressItem.mk (ProgressItem.file item) (ProgressItem.loaded item)
                       progress (ProgressItem.total item) (ProgressItem.name item)
                       (ProgressItem.status item)
                else item)
             (Hook.progressItems h))
  | MsgUpdate text chunks =>
      Hook.mk
        (Some (TranscriberData.mk (mergeChunks (Hook.transcript h) chunks)
                 text true false None))
        (Hook.isBusy h) (Hook.isModelLoading h) (Hook.progressItems h)
  | MsgComplete text chunks =>
      Hook.mk
        (Some (TranscriberData.mk (mergeChunks (Hook.transcript h) chunks)
                 text false false None))
        false (Hook.isModelLoading h) (Hook.progressItems h)
  | MsgInitiate item =>
      Hook.mk (Hook.transcript h) (Hook.isBusy h) true
        (Hook.progressItems h ++ [item])
  | MsgReady =>
      Hook.mk (Hook.transcript h) (Hook.isBusy h) false (Hook.progressItems h)
  | MsgError message =>
      Hook.mk (Some (errorTranscript (Hook.transcript h) message))
        false (Hook.isModelLoading h) (Hook.progressItems h)
  | MsgDone file =>
      Hook.mk (Hook.transcript h) (Hook.isBusy h) (Hook.isModelLoading h)
        (List.filter (fun item => negb (String.eqb (ProgressItem.file item) file))
           (Hook.progressItems h))
  | MsgOther _ => h
  end.

(** The initial state of the hook. *)
Definition emptyTranscript : TranscriberData.t :=
  TranscriberData.mk [] EmptyString false false None.

Definition initialHook : Hook.t :=
  Hook.mk (Some emptyTranscript) false false [].

(** [onInputChange]: a new audio source was selected. *)
Definition onInputChange (h : Hook.t) : Hook.t :=
  Hook.mk (Some emptyTranscript) (Hook.isBusy h) (Hook.isModelLoading h)
    (Hook.progressItems h).

(** [postRequest] ([start]): the state part of starting a transcription;
    [hasAudio] is [audioData !== undefined]. *)
Definition postRequest (hasAudio : bool) (h : Hook.t) : Hook.t :=
  if hasAudio
  then Hook.mk None true (Hook.isModelLoading h) (Hook.progressItems h)
  else h.

(** ** The [Transcript] component *)

(** What the component reads of the [<audio>] element behind [audioRef]. *)
Module HTMLAudioElement.
Record t := mk {
  paused : bool;
  playbackRate : Q
}.
End HTMLAudioElement.

(** The state of the component: its [useState] cells and [audioRef]. *)
Module View.
Record t := mk {
  currentTime : Q;
  editingIndex : option nat;
  editText : string;
  playbackSpeed : Q;
  audioDuration : Q;
  audioRef : option HTMLAudioElement.t
}.
End View.

(** The application: the hook's state and the component's.  The prop
    [transcribedData] of the component is the very object held in
    [Hook.transcript] ([transcriber.output]), so a write through the prop is
    a write to the hook's transcript. *)
Module App.
Record t := mk {
  hook : Hook.t;
  view : View.t
}.
End App.

Definition transcribedData (a : App.t) : option TranscriberData.t :=
  Hook.transcript (App.hook a).

(** What a handler does besides setting state: calls on the event, on the
    audio element, and on the [onSeek] prop ([App] passes [handleSeek]). *)
Inductive Call : Type :=
| PreventDefault
| StopPropagation
| Play
| Pause
| SetPlaybackRate (rate : Q)
| OnSeek (time : Q)
| FocusEditLater.

(** The part of a DOM keyboard event the handlers look at; [targetIsInput]
    is [e.target instanceof HTMLInputElement || e.target instanceof
    HTMLTextAreaElement]. *)
Module KeyboardEvent.
Record t := mk {
  key : string;
  shiftKey : bool;
  targetIsInput : bool
}.
End KeyboardEvent.

(** The state values a function of the component body closes over.  The
    window listener [handleKeyDown] is registered by an effect whose
    dependencies are [transcribedData], [currentTime] and [editingIndex]; it
    reads the values of the render it was registered in. *)
Module Closure.
Record t := mk {
  currentTime : Q;
  editingIndex : option nat;
  playbackSpeed : Q;
  audioDuration : Q
}.
End Closure.

(** The closure of the latest render. *)
Definition capture (v : View.t) : Closure.t :=
  Closure.mk (View.currentTime v) (View.editingIndex v)
    (View.playbackSpeed v) (View.audioDuration v).

Section Lookup.
Variable chunks : list TranscriberChunk.t.
Variables currentTime audioDuration : Q.

(** The [end] of the loop body of [getCurrentUtteranceIndex]:
    [chunk.timestamp[1] ?? (i < chunks.length - 1 ? chunks[i + 1].timestamp[0]
    : audioDuration)]. *)
Definition lookupEnd (i : nat) (chunk : TranscriberChunk.t) : Q :=
  match snd (TranscriberChunk.timestamp chunk) with
  | Some e => e
  | None =>
      if Z.of_nat i <? Z.of_nat (length chunks) - 1
      then match chunks !! (i + 1)%nat with
           | Some next => fst (TranscriberChunk.timestamp next)
           | None => audioDuration (* not reached: i + 1 < length *)
           end
      else audioDuration
  end.

(** The [for] loop from index [i], with [n] iterations left. *)
Fixpoint lookupLoop (n i : nat) : Z :=
  match n with
  | O => -1
  | S n' =>
      match chunks !! i with
      | None => -1
      | Some chunk =>
          let start := fst (TranscriberChunk.timestamp chunk) in
          let end_ := lookupEnd i chunk in
          if num_ge currentTime start && num_lt currentTime end_
          then Z.of_nat i
          else lookupLoop n' (S i)
      end
  end.
End Lookup.

(** [getCurrentUtteranceIndex], on the values its closure holds. *)
Definition getCurrentUtteranceIndex (transcribedData : option TranscriberData.t)
    (currentTime audioDuration : Q) : Z :=
  match transcribedData with
  | None => -1
  | Some d =>
      let chunks := TranscriberData.chunks d in
      match last chunks with
      | None => -1
      | Some lastChunk =>
          let lastIndex := Z.of_nat (length chunks) - 1 in
          if TranscriberData.isBusy d
             && num_ge currentTime (fst (TranscriberChunk.timestamp lastChunk))
          then lastIndex
          else lookupLoop chunks currentTime audioDuration (length chunks) 0
      end
  end.

(** The boundaries the render computes for chunk [i]:
    [i < chunks.length - 1 ? chunks[i + 1].timestamp[0]
     : (chunk.timestamp[1] || audioDuration)]; [0] is falsy. *)
Definition renderEnd (chunks : list TranscriberChunk.t) (audioDuration : Q)
    (i : nat) (chunk : TranscriberChunk.t) : Q :=
  if Z.of_nat i <? Z.of_nat (length chunks) - 1
  then match chunks !! (i + 1)%nat with
       | Some next => fst (TranscriberChunk.timestamp next)
       | None => audioDuration (* not reached: i + 1 < length *)
       end
  else match snd (TranscriberChunk.timestamp chunk) with
       | Some e => if Qeq_bool e 0 then audioDuration else e
       | None => audioDuration
       end.

(** [isPlaying] of the render, for chunk [i]. *)
Definition isPlaying (chunks : list TranscriberChunk.t)
    (currentTime audioDuration : Q) (i : nat) (chunk : TranscriberChunk.t) : bool :=
  num_ge currentTime (fst (TranscriberChunk.timestamp chunk))
  && num_lt currentTime (renderEnd chunks audioDuration i chunk).

(** ** Keyboard handlers *)

Definition withView (a : App.t) (v : View.t) : App.t := App.mk (App.hook a) v.

Definition setEditing (v : View.t) (i : option nat) (draft : string) : View.t :=
  View.mk (View.currentTime v) i draft (View.playbackSpeed v)
    (View.audioDuration v) (View.audioRef v).

Definition setPaused (v : View.t) (el : HTMLAudioElement.t) (p : bool) : View.t :=
  View.mk (View.currentTime v) (View.editingIndex v) (View.editText v)
    (View.playbackSpeed v) (View.audioDuration v)
    (Some (HTMLAudioElement.mk p (HTMLAudioElement.playbackRate el))).

(** [audioRef.current.playbackRate = newSpeed; setPlaybackSpeed(newSpeed)] *)
Definition setSpeed (v : View.t) (el : HTMLAudioElement.t) (newSpeed : Q) : View.t :=
  View.mk (View.currentTime v) (View.editingIndex v) (View.editText v)
    newSpeed (View.audioDuration v)
    (Some (HTMLAudioElement.mk (HTMLAudioElement.paused el) newSpeed)).

(** The [switch (e.key)] of [handleKeyDown], for an active chunk
    [currentIndex] of the non-empty list [chunks]. *)
Definition keySwitch (c : Closure.t) (e : KeyboardEvent.t) (a : App.t)
    (chunks : list TranscriberChunk.t) (currentIndex : Z) : App.t * list Call :=
  let v := App.view a in
  let key := KeyboardEvent.key e in
  if String.eqb key " " then
    match View.audioRef v with
    | Some el =>
        if HTMLAudioElement.paused el
        then (withView a (setPaused v el false), [PreventDefault; Play])
        else (withView a (setPaused v el true), [PreventDefault; Pause])
    | None => (a, [PreventDefault])
    end
  else if String.eqb key "ArrowRight" then
    if currentIndex <? Z.of_nat (length chunks) - 1
    then match chunks !! Z.to_nat (currentIndex + 1) with
         | Some next => (a, [OnSeek (fst (TranscriberChunk.timestamp next))])
         | None => (a, []) (* not reached: currentIndex + 1 < length *)
         end
    else (a, [])
  else if String.eqb key "ArrowLeft" then
    if currentIndex >? 0
    then match chunks !! Z.to_nat (currentIndex - 1) with
         | Some prev => (a, [OnSeek (fst (TranscriberChunk.timestamp prev))])
         | None => (a, []) (* not reached: 0 <= currentIndex - 1 < length *)
         end
    else (a, [])
  else if String.eqb key "Enter" then
    if js_not_index (Closure.editingIndex c)
    then match chunks !! Z.to_nat currentIndex with
         | Some chunk =>
             (withView a (setEditing v (Some (Z.to_nat currentIndex))
                            (TranscriberChunk.text chunk)),
              [PreventDefault; FocusEditLater])
         | None => (a, [PreventDefault]) (* not reached: currentIndex is an index *)
         end
    else (a, [])
  else if String.eqb key "Escape" then
    match Closure.editingIndex c with
    | Some _ => (withView a (setEditing v None (View.editText v)), [])
    | None => (a, [])
    end
  else if String.eqb key "ArrowUp" then
    match View.audioRef v with
    | Some el =>
        let newSpeed := Math_min 4 (Closure.playbackSpeed c + 0.25)%Q in
        (withView a (setSpeed v el newSpeed), [PreventDefault; SetPlaybackRate newSpeed])
    | None => (a, [PreventDefault])
    end
  else if String.eqb key "ArrowDown" then
    match View.audioRef v with
    | Some el =>
        let newSpeed := Math_max 0.25 (Closure.playbackSpeed c - 0.25)%Q in
        (withView a (setSpeed v el newSpeed), [PreventDefault; SetPlaybackRate newSpeed])
    | None => (a, [PreventDefault])
    end
  else (a, []).

(** [handleKeyDown], the window [keydown] listener: [c] holds the values of
    the render the listener was registered in, [a] is the state the setters
    and the refs act on. *)
Definition handleKeyDown (c : Closure.t) (e : KeyboardEvent.t) (a : App.t)
  : App.t * list Call :=
  match Closure.editingIndex c with
  | Some _ => (a, [])
  | None =>
      if KeyboardEvent.targetIsInput e then (a, [])
      else
        match transcribedData a with
        | None => (a, [])
        | Some d =>
            let chunks := TranscriberData.chunks d in
            if (length chunks =? 0)%nat then (a, [])
            else
              let currentIndex :=
                getCurrentUtteranceIndex (Some d) (Closure.currentTime c)
                  (Closure.audioDuration c) in
              if currentIndex =? -1 then (a, [])
              else keySwitch c e a chunks currentIndex
        end
  end.

(** [handleKeyDown] as the listener of the latest render. *)
Definition keyDown (e : KeyboardEvent.t) (a : App.t) : App.t * list Call :=
  handleKeyDown (capture (App.view a)) e a.

(** The chunk written by a commit:
    [{ ...newChunks[editingIndex], text: editText, isEdited: true }]. *)
Definition editedChunk (old : TranscriberChunk.t) (editText : string)
  : TranscriberChunk.t :=
  TranscriberChunk.mk editText (TranscriberChunk.timestamp old) (Some true).

(** [Object.assign(transcribedData, { ...transcribedData, chunks: newChunks,
    text: newChunks.map(chunk => chunk.text).join('') })]: the shared
    transcript object is updated in place. *)
Definition assignChunks (d : TranscriberData.t) (newChunks : list TranscriberChunk.t)
  : TranscriberData.t :=
  TranscriberData.mk newChunks
    (join_empty (map TranscriberChunk.text newChunks))
    (TranscriberData.isBusy d) (TranscriberData.isModelLoading d)
    (TranscriberData.error d).

Definition withTranscript (a : App.t) (d : TranscriberData.t) : App.t :=
  App.mk (Hook.mk (Some d) (Hook.isBusy (App.hook a))
            (Hook.isModelLoading (App.hook a)) (Hook.progressItems (App.hook a)))
         (App.view a).

(** [handleEditKeyDown], the [onKeyDown] of the edit [<textarea>].  The
    result is [None] when [editingIndex] is past the end of [chunks]: the
    assignment [newChunks[editingIndex] = ...] then grows the array and
    stores an object without [timestamp], which is not a list of
    [TranscriberChunk].  (The textarea is rendered only for an existing
    chunk.) *)
Definition handleEditKeyDown (e : KeyboardEvent.t) (a : App.t)
  : option (App.t * list Call) :=
  let v := App.view a in
  if String.eqb (KeyboardEvent.key e) "Enter" && negb (KeyboardEvent.shiftKey e) then
    match View.editingIndex v, transcribedData a with
    | Some editingIndex, Some d =>
        let chunks := TranscriberData.chunks d in
        match chunks !! editingIndex with
        | Some old =>
            let newChunks := <[editingIndex := editedChunk old (View.editText v)]> chunks in
            Some (withView (withTranscript a (assignChunks d newChunks))
                    (setEditing v None (View.editText v)),
                  [PreventDefault; StopPropagation])
        | None => None
        end
    | _, _ => Some (a, [PreventDefault; StopPropagation])
    end
  else if String.eqb (KeyboardEvent.key e) "Escape" then
    Some (withView a (setEditing v None (View.editText v)),
          [PreventDefault; StopPropagation])
  else Some (a, []).

(** [onChange] of the textarea: [setEditText(e.target.value)]. *)
Definition onEditChange (value : string) (a : App.t) : App.t :=
  withView a (setEditing (App.view a) (View.editingIndex (App.view a)) value).

(** ** The other handlers of the component *)

Definition setTimes (v : View.t) (time duration : Q) : View.t :=
  View.mk time (View.editingIndex v) (View.editText v)
    (View.playbackSpeed v) duration (View.audioRef v).

(** [handleTimeUpdate], called on [timeupdate] and [seeking]. *)
Definition handleTimeUpdate (time : Q) (a : App.t) : App.t :=
  withView a (setTimes (App.view a) time (View.audioDuration (App.view a))).

(** [updateDuration], called on [loadedmetadata]. *)
Definition updateDuration (duration time : Q) (a : App.t) : App.t :=
  withView a (setTimes (App.view a) time duration).

(** [handleUtteranceClick] on the span of chunk [i]. *)
Definition handleUtteranceClick (i : nat) (a : App.t) : option (App.t * list Call) :=
  match transcribedData a with
  | None => None
  | Some d =>
      match TranscriberData.chunks d !! i with
      | None => None
      | Some chunk =>
          let timestamp := fst (TranscriberChunk.timestamp chunk) in
          Some (withView a (setTimes (App.view a) timestamp
                              (View.audioDuration (App.view a))),
                [OnSeek timestamp])
      end
  end.

(** The effect that connects to the audio element; it runs on mount and
    when [playbackSpeed] changes.  [found] is the result of
    [document.querySelector("audio")], with the element's [paused],
    [currentTime] and [duration || 0]. *)
Definition connectAudio (found : option (bool * Q * Q)) (a : App.t)
  : App.t * list Call :=
  match found with
  | None => (a, [])
  | Some (paused, time, duration) =>
      let v := App.view a in
      (withView a
         (View.mk time (View.editingIndex v) (View.editText v)
            (View.playbackSpeed v) duration
            (Some (HTMLAudioElement.mk paused (View.playbackSpeed v)))),
       [SetPlaybackRate (View.playbackSpeed v)])
  end.

(** The element starts or stops playing for a reason outside the
    component (its native controls, or [seek] of the hook). *)
Definition pausedChanged (p : bool) (a : App.t) : App.t :=
  match View.audioRef (App.view a) with
  | Some el => withView a (setPaused (App.view a) el p)
  | None => a
  end.

(** ** The application as a transition system *)

(** The state, with the closure of the registered [keydown] listener. *)
Module Sys.
Record t := mk {
  app : App.t;
  listener : Closure.t
}.
End Sys.

Inductive Event : Type :=
| EvKeyDown (e : KeyboardEvent.t)
| EvRegister
| EvEditKeyDown (e : KeyboardEvent.t)
| EvEditChange (value : string)
| EvTimeUpdate (time : Q)
| EvLoadedMetadata (duration time : Q)
| EvUtteranceClick (i : nat)
| EvConnectAudio (found : option (bool * Q * Q))
| EvPausedChanged (p : bool)
| EvWorker (message : Message)
| EvInputChange
| EvStart (hasAudio : bool).

Definition withHook (a : App.t) (h : Hook.t) : App.t := App.mk h (App.view a).

(** The edit textarea is on screen: [editingIndex] is the index of a chunk. *)
Definition textareaRendered (a : App.t) : bool :=
  match View.editingIndex (App.view a), transcribedData a with
  | Some i, Some d => (i <? length (TranscriberData.chunks d))%nat
  | _, _ => false
  end.

(** One event.  [None]: the event cannot occur in this state.  [EvRegister]
    is the effect that registers [handleKeyDown] again; React runs it after a
    render in which one of its dependencies changed, here it may run at any
    time, which covers every schedule. *)
Definition step (ev : Event) (s : Sys.t) : option (Sys.t * list Call) :=
  let a := Sys.app s in
  let keep (r : App.t * list Call) := (Sys.mk (fst r) (Sys.listener s), snd r) in
  match ev with
  | EvKeyDown e => Some (keep (handleKeyDown (Sys.listener s) e a))
  | EvRegister => Some (Sys.mk a (capture (App.view a)), [])
  | EvEditKeyDown e =>
      if textareaRendered a then keep <$> handleEditKeyDown e a else None
  | EvEditChange value =>
      if textareaRendered a then Some (keep (onEditChange value a, [])) else None
  | EvTimeUpdate time => Some (keep (handleTimeUpdate time a, []))
  | EvLoadedMetadata duration time => Some (keep (updateDuration duration time a, []))
  | EvUtteranceClick i =>
      (* the span of the chunk being edited is replaced by the textarea *)
      if decide (View.editingIndex (App.view a) = Some i) then None
      else keep <$> handleUtteranceClick i a
  | EvConnectAudio found => Some (keep (connectAudio found a))
  | EvPausedChanged p => Some (keep (pausedChanged p a, []))
  | EvWorker message => Some (keep (withHook a (onWorkerMessage message (App.hook a)), []))
  | EvInputChange => Some (keep (withHook a (onInputChange (App.hook a)), []))
  | EvStart hasAudio => Some (keep (withHook a (postRequest hasAudio (App.hook a)), []))
  end.

Definition initialView : View.t := View.mk 0 None EmptyString 1 0 None.

Definition initialSys : Sys.t :=
  Sys.mk (App.mk initialHook initialView) (capture initialView).

(** The states the application can be in. *)
Inductive reachable : Sys.t -> Prop :=
| reachable_init : reachable initialSys
| reachable_step ev s s' calls :
    reachable s -> step ev s = Some (s', calls) -> reachable s'.

(** A run of worker messages through the hook. *)
Definition runMessages (ms : list Message) (h : Hook.t) : Hook.t :=
  fold_left (fun h m => onWorkerMessage m h) ms h.

(** A partial or final Transcription Update. *)
Definition isTranscriptionUpdate (m : Message) : bool :=
  match m with
  | MsgUpdate _ _ | MsgComplete _ _ => true
  | _ => false
  end.

(** The playback speeds of the grid 0.25, 0.5, ..., 4. *)
Definition onSpeedGrid (q : Q) : Prop :=
  (0.25 <= q)%Q /\ (q <= 4)%Q /\ exists k : Z, (q * 4 == inject_Z k)%Q.

(** The text and the chunks of the transcript, the timeline's contents. *)
Definition timelineContents (h : Hook.t) : option (list TranscriberChunk.t * string) :=
  match Hook.transcript h with
  | Some d => Some (TranscriberData.chunks d, TranscriberData.text d)
  | None => None
  end.

(** The end of the range of segment [i] in the words of the specification:
    the next segment's start when [i] is not the last index, else the
    segment's own end when present, else the duration. *)
Definition specEffectiveEnd (chunks : list TranscriberChunk.t) (duration : Q)
    (i : nat) (chunk : TranscriberChunk.t) : Q :=
  match chunks !! (i + 1)%nat with
  | Some next => fst (TranscriberChunk.timestamp next)
  | None =>
      match snd (TranscriberChunk.timestamp chunk) with
      | Some e => e
      | None => duration
      end
  end.

(** [currentTime] lies in the range of segment [i], with the given end. *)
Definition inRange (currentTime : Q) (chunk : TranscriberChunk.t) (end_ : Q) : Prop :=
  (fst (TranscriberChunk.timestamp chunk) <= currentTime)%Q /\ (currentTime < end_)%Q.

(** A timeline whose stored ends agree with the next starts: every chunk
    but the last has no end of its own, or one equal to the start of the next
    chunk. *)
Definition contiguous (chunks : list TranscriberChunk.t) : Prop :=
  forall i c next e,
    chunks !! i = Some c -> chunks !! (i + 1)%nat = Some next ->
    snd (TranscriberChunk.timestamp c) = Some e ->
    (e == fst (TranscriberChunk.timestamp next))%Q.

(** The playback speed of the component and the rate it has given the
    audio element are on the grid. *)
Definition viewOnGrid (v : View.t) : Prop :=
  onSpeedGrid (View.playbackSpeed v) /\
  forall el, View.audioRef v = Some el -> onSpeedGrid (HTMLAudioElement.playbackRate el).

Definition sysOnGrid (s : Sys.t) : Prop :=
  viewOnGrid (App.view (Sys.app s)) /\ onSpeedGrid (Closure.playbackSpeed (Sys.listener s)).

(** The start times never decrease along the list. *)
Fixpoint startsSorted (chunks : list TranscriberChunk.t) : bool :=
  match chunks with
  | c :: (next :: _) as rest =>
      Qle_bool (fst (TranscriberChunk.timestamp c)) (fst (TranscriberChunk.timestamp next))
      && startsSorted rest
  | _ => true
  end.

(** ** Stored settings ([getStoredSetting], [updateSetting]) *)

Section Settings.
Context {T : Type}.
(** [JSON.parse] at the type of the setting, [None] when it throws, and
    [JSON.stringify]. *)
Variable JSON_parse : string -> option T.
Variable JSON_stringify : T -> string.

(** The template [`transcriber_${key}`]. *)
Definition settingKey (key : string) : string := "transcriber_" +:+ key.

(** [getStoredSetting] of [useTranscriber.ts]; [localStorage.getItem] gives
    [null] for a missing key. *)
Definition getStoredSetting (localStorage : gmap string string) (key : string)
    (defaultValue : T) : T :=
  match localStorage !! settingKey key with
  | Some stored =>
      match JSON_parse stored with
      | Some value => value
      | None => defaultValue
      end
  | None => defaultValue
  end.

(** [updateSetting] of [SettingsModal]. *)
Definition updateSetting (key : string) (value : T) (localStorage : gmap string string)
  : gmap string string :=
  <[settingKey key := JSON_stringify value]> localStorage.
End Settings.

(** ** The model list of [SettingsModal] *)

(** [models]: the sizes in MB, quantized first. *)
Definition models : list (string * list nat) :=
  [("Xenova/whisper-tiny", [41; 152]%nat);
   ("Xenova/whisper-base", [77; 291]%nat);
   ("Xenova/whisper-small", [249]%nat);
   ("Xenova/whisper-medium", [776]%nat);
   ("distil-whisper/distil-medium.en", [402]%nat);
   ("distil-whisper/distil-large-v2", [767]%nat)].

(** [key.startsWith('distil-whisper/')] *)
Definition isDistil (key : string) : bool := String.prefix "distil-whisper/" key.

(** The two [filter]s over [Object.keys(models)]. *)
Definition offeredModels (table : list (string * list nat)) (quantized multilingual : bool)
  : list (string * list nat) :=
  List.filter (fun entry => negb multilingual || negb (isDistil (fst entry)))
    (List.filter (fun entry => quantized || (length (snd entry) =? 2)%nat) table).

(** [models[key][quantized ? 0 : 1]], [None] for [undefined]. *)
Definition modelSize (quantized : bool) (sizes : list nat) : option nat :=
  sizes !! (if quantized then 0 else 1)%nat.

(** The text of an [<option>]. *)
Definition optionLabel (quantized multilingual : bool) (entry : string * list nat) : string :=
  fst entry
  +:+ (if multilingual || isDistil (fst entry) then "" else ".en")
  +:+ " ("
  +:+ match modelSize quantized (snd entry) with
      | Some size => pretty size
      | None => "undefined"
      end
  +:+ "MB)".

(** The messages about model files (and those with an unknown status). *)
Definition isModelFileMessage (m : Message) : bool :=
  match m with
  | MsgProgress _ _ | MsgInitiate _ | MsgReady | MsgDone _ | MsgOther _ => true
  | MsgUpdate _ _ | MsgComplete _ _ | MsgError _ => false
  end.

(** No progress item is about [file]. *)
Definition noItemFor (file : string) (items : list ProgressItem.t) : Prop :=
  Forall (fun item => ProgressItem.file item <> file) items.

(** The conditions of the render: [transcribedData?.isModelLoading] shows
    the model-loading indicator, and [transcribedData && !transcribedData.isBusy
    && !transcribedData.isModelLoading] shows the export buttons. *)
Definition showsModelLoading (a : App.t) : bool :=
  match transcribedData a with
  | Some d => TranscriberData.isModelLoading d
  | None => false
  end.

Definition showsExport (a : App.t) : bool :=
  match transcribedData a with
  | Some d => negb (TranscriberData.isBusy d) && negb (TranscriberData.isModelLoading d)
  | None => false
  end.

(** * Properties *)

(** ** The merge of [useTranscriber] *)

Lemma or_false_Some (b : bool) : or_false (Some b) = b.
Proof. by destruct b. Qed.

Lemma mergeChunks_lookup prev new k :
  mergeChunks prev new !! k =
  (fun ec => TranscriberChunk.mk (EngineChunk.text ec) (EngineChunk.timestamp ec)
               (Some (or_false (prevIsEdited prev k)))) <$> new !! k.
Proof. unfold mergeChunks. by rewrite list_lookup_imap. Qed.

Lemma mergeChunks_length prev new : length (mergeChunks prev new) = length new.
Proof. apply length_imap. Qed.

(** Merging looks only at the [isEdited] flags of the previous chunks. *)
Lemma prevIsEdited_merged prev new text busy loading err k ec :
  new !! k = Some ec ->
  or_false (prevIsEdited
              (Some (TranscriberData.mk (mergeChunks prev new) text busy loading err)) k)
  = or_false (prevIsEdited prev k).
Proof.
  intros Hk. cbn [prevIsEdited TranscriberData.chunks].
  rewrite mergeChunks_lookup, Hk. cbn. apply or_false_Some.
Qed.

Lemma mergeChunks_idem prev new text busy loading err :
  mergeChunks (Some (TranscriberData.mk (mergeChunks prev new) text busy loading err)) new
  = mergeChunks prev new.
Proof.
  unfold mergeChunks at 1 3. apply imap_ext. intros i ec Hi. cbn beta.
  f_equal. f_equal. by eapply prevIsEdited_merged.
Qed.

(** An update or a final message always leaves a transcript, built from
    the message. *)
Lemma onWorkerMessage_update m h :
  isTranscriptionUpdate m = true ->
  exists text new busy,
    (m = MsgUpdate text new /\ busy = true \/ m = MsgComplete text new /\ busy = false) /\
    Hook.transcript (onWorkerMessage m h)
    = Some (TranscriberData.mk (mergeChunks (Hook.transcript h) new) text busy false None).
Proof.
  destruct m; try discriminate; intros _; cbn; eauto 10.
Qed.

(** C2 - edit preservation across merge.  For a partial or final update
    whose chunk list has an entry at index [k], the merged chunk at [k]
    takes its text and timestamp from the update; its [isEdited] is [true]
    when the previous transcript had a chunk at [k] with [isEdited = true],
    and [false] for every index without such a chunk. *)
Theorem merge_preserves_isEdited
    (h : Hook.t) (m : Message) (text : string) (new : list EngineChunk.t)
    (k : nat) (ec : EngineChunk.t) :
  m = MsgUpdate text new \/ m = MsgComplete text new ->
  new !! k = Some ec ->
  let previouslyEdited :=
    exists prev c, Hook.transcript h = Some prev /\
                   TranscriberData.chunks prev !! k = Some c /\
                   TranscriberChunk.isEdited c = Some true in
  exists d', Hook.transcript (onWorkerMessage m h) = Some d' /\
    (previouslyEdited ->
     TranscriberData.chunks d' !! k
     = Some (TranscriberChunk.mk (EngineChunk.text ec) (EngineChunk.timestamp ec) (Some true))) /\
    (~ previouslyEdited ->
     TranscriberData.chunks d' !! k
     = Some (TranscriberChunk.mk (EngineChunk.text ec) (EngineChunk.timestamp ec) (Some false))).
Proof.
  intros Hm Hk previouslyEdited.
  assert (Hflag : previouslyEdited <-> or_false (prevIsEdited (Hook.transcript h) k) = true).
  { unfold previouslyEdited, prevIsEdited. split.
    - intros (prev & c & -> & -> & ->). reflexivity.
    - destruct (Hook.transcript h) as [prev|]; [|discriminate].
      destruct (TranscriberData.chunks prev !! k) as [c|] eqn:Hc; [|discriminate].
      destruct (TranscriberChunk.isEdited c) as [[|]|] eqn:He; try discriminate.
      intros _. eauto. }
  exists (TranscriberData.mk (mergeChunks (Hook.transcript h) new) text
            (match m with MsgUpdate _ _ => true | _ => false end) false None).
  split; [destruct Hm as [-> | ->]; reflexivity|].
  cbn [TranscriberData.chunks]. rewrite mergeChunks_lookup, Hk. cbn [fmap option_fmap option_map].
  split; intros Hp.
  - apply Hflag in Hp. by rewrite Hp.
  - destruct (or_false (prevIsEdited (Hook.transcript h) k)) eqn:Ho; [|done].
    exfalso. apply Hp, Hflag. done.
Qed.

(** An edited first chunk keeps its mark when a partial update revises it. *)
Lemma merge_preserves_isEdited_witness :
  exists d',
    Hook.transcript
      (onWorkerMessage (MsgUpdate "Hello world" [EngineChunk.mk "Hello world" (0%Q, None)])
         (Hook.mk (Some (TranscriberData.mk
                           [TranscriberChunk.mk "Hullo" (0%Q, Some 2%Q) (Some true)]
                           "Hullo" true false None)) true false []))
    = Some d' /\
    TranscriberData.chunks d' !! 0%nat
    = Some (TranscriberChunk.mk "Hello world" (0%Q, None) (Some true)).
Proof.
  destruct (merge_preserves_isEdited
              (Hook.mk (Some (TranscriberData.mk
                                [TranscriberChunk.mk "Hullo" (0%Q, Some 2%Q) (Some true)]
                                "Hullo" true false None)) true false [])
              (MsgUpdate "Hello world" [EngineChunk.mk "Hello world" (0%Q, None)])
              "Hello world" [EngineChunk.mk "Hello world" (0%Q, None)]
              0%nat (EngineChunk.mk "Hello world" (0%Q, None)))
    as (d' & Hd & Hyes & _).
  - left. reflexivity.
  - reflexivity.
  - exists d'. split; [exact Hd|]. apply Hyes.
    eexists _, _. repeat split; reflexivity.
Defined.

(** C8 - error atomicity.  Processing an error signal keeps the chunks and
    the text of the transcript ([chunks: []], [text: ''] when there was no
    transcript object), sets [isBusy] to false in the transcript and in the
    hook, and stores the engine's message, followed by the hint, as the
    error. *)
Theorem error_preserves_timeline (h : Hook.t) (message : string) :
  let h' := onWorkerMessage (MsgError message) h in
  exists d', Hook.transcript h' = Some d' /\
    TranscriberData.chunks d'
    = TranscriberData.chunks (default emptyTranscript (Hook.transcript h)) /\
    TranscriberData.text d'
    = TranscriberData.text (default emptyTranscript (Hook.transcript h)) /\
    TranscriberData.isBusy d' = false /\
    Hook.isBusy h' = false /\
    TranscriberData.error d' = Some (message +:+ errorHint).
Proof.
  cbn. eexists. split; [reflexivity|].
  destruct (Hook.transcript h); cbn; auto.
Qed.

(** C9 - idempotent final merge.  Processing the same final update twice
    gives the state that processing it once gives. *)
Theorem complete_idempotent (h : Hook.t) (text : string) (new : list EngineChunk.t) :
  onWorkerMessage (MsgComplete text new) (onWorkerMessage (MsgComplete text new) h)
  = onWorkerMessage (MsgComplete text new) h.
Proof.
  cbn. by rewrite mergeChunks_idem.
Qed.

(** C10 - an error is cleared by the next merge.  From a state whose
    transcript carries an error message, a partial or final update gives a
    transcript without one. *)
Theorem update_clears_error
    (h : Hook.t) (prev : TranscriberData.t) (e : string) (m : Message) :
  Hook.transcript h = Some prev ->
  TranscriberData.error prev = Some e ->
  isTranscriptionUpdate m = true ->
  exists d', Hook.transcript (onWorkerMessage m h) = Some d' /\
             TranscriberData.error d' = None.
Proof.
  intros _ _ Hm.
  destruct (onWorkerMessage_update m h Hm) as (text & new & busy & _ & ->).
  eexists. split; reflexivity.
Qed.

Lemma update_clears_error_witness :
  exists d',
    Hook.transcript
      (onWorkerMessage (MsgUpdate "Hi" [EngineChunk.mk "Hi" (0%Q, None)])
         (onWorkerMessage (MsgError "Out of memory.") initialHook))
    = Some d' /\ TranscriberData.error d' = None.
Proof.
  apply (update_clears_error
           (onWorkerMessage (MsgError "Out of memory.") initialHook)
           (errorTranscript (Some emptyTranscript) "Out of memory.")
           ("Out of memory." +:+ errorHint)
           (MsgUpdate "Hi" [EngineChunk.mk "Hi" (0%Q, None)]));
    reflexivity.
Defined.

(** ** The active-utterance lookup *)

Lemma num_ge_le x y : num_ge x y = true <-> (y <= x)%Q.
Proof. apply Qle_bool_iff. Qed.

Lemma num_lt_lt x y : num_lt x y = true <-> (x < y)%Q.
Proof.
  unfold num_lt. rewrite negb_true_iff, <- not_true_iff_false, Qle_bool_iff.
  split; [apply Qnot_le_lt | apply Qlt_not_le].
Qed.

Lemma inRange_bool t c e :
  num_ge t (fst (TranscriberChunk.timestamp c)) && num_lt t e = true <-> inRange t c e.
Proof. unfold inRange. by rewrite andb_true_iff, num_ge_le, num_lt_lt. Qed.

(** What the loop returns: the first index from [i] whose range, with the
    end the loop computes, holds [currentTime]; [-1] when there is none. *)
Lemma lookupLoop_spec chunks t dur n i :
  (i + n = length chunks)%nat ->
  (lookupLoop chunks t dur n i = -1 /\
   forall j c, (i <= j)%nat -> chunks !! j = Some c ->
               ~ inRange t c (lookupEnd chunks dur j c))
  \/
  (exists j c, lookupLoop chunks t dur n i = Z.of_nat j /\ (i <= j)%nat /\
               chunks !! j = Some c /\ inRange t c (lookupEnd chunks dur j c) /\
               forall j' c', (i <= j' < j)%nat -> chunks !! j' = Some c' ->
                             ~ inRange t c' (lookupEnd chunks dur j' c')).
Proof.
  revert i. induction n as [|n IH]; intros i Hlen.
  - left. split; [reflexivity|]. intros j c Hij Hj.
    apply lookup_lt_Some in Hj. lia.
  - cbn [lookupLoop].
    destruct (chunks !! i) as [chunk|] eqn:Hi.
    2:{ apply lookup_ge_None in Hi. lia. }
    destruct (num_ge t (fst (TranscriberChunk.timestamp chunk))
              && num_lt t (lookupEnd chunks dur i chunk)) eqn:Hhit.
    + right. exists i, chunk. apply inRange_bool in Hhit.
      split; [reflexivity|]. split; [lia|]. split; [done|]. split; [done|].
      intros; lia.
    + assert (Hmiss : ~ inRange t chunk (lookupEnd chunks dur i chunk)).
      { rewrite <- inRange_bool, Hhit. discriminate. }
      destruct (IH (S i)) as [[Hr Hnone] | (j & c & Hr & Hij & Hj & Hin & Hfirst)]; [lia| |].
      * left. split; [exact Hr|]. intros j c Hij Hj.
        destruct (decide (j = i)) as [->|]; [congruence|]. apply Hnone; [lia|done].
      * right. exists j, c.
        split; [exact Hr|]. split; [lia|]. split; [done|]. split; [done|].
        intros j' c' Hj' Hc'.
        destruct (decide (j' = i)) as [->|]; [congruence|]. apply (Hfirst j'); [lia|done].
Qed.

(** The lookup returns [-1] or an index of the list. *)
Lemma getCurrentUtteranceIndex_range d t dur :
  getCurrentUtteranceIndex (Some d) t dur = -1 \/
  0 <= getCurrentUtteranceIndex (Some d) t dur < Z.of_nat (length (TranscriberData.chunks d)).
Proof.
  cbn [getCurrentUtteranceIndex].
  destruct (last (TranscriberData.chunks d)) as [lastChunk|] eqn:Hlast; [|by left].
  assert (length (TranscriberData.chunks d) <> 0)%nat.
  { intros Hz. apply length_zero_iff_nil in Hz. rewrite Hz in Hlast. discriminate. }
  destruct (_ && _); [right; lia|].
  destruct (lookupLoop_spec (TranscriberData.chunks d) t dur
              (length (TranscriberData.chunks d)) 0)
    as [[-> _] | (j & c & -> & _ & Hj & _)]; [lia|by left|].
  right. apply lookup_lt_Some in Hj. lia.
Qed.

Lemma getCurrentUtteranceIndex_empty text busy loading err t dur :
  getCurrentUtteranceIndex None t dur = -1 /\
  getCurrentUtteranceIndex (Some (TranscriberData.mk [] text busy loading err)) t dur = -1.
Proof. split; reflexivity. Qed.

(** On a transcript that is not busy the lookup is the loop: it returns the
    first index whose range holds [currentTime], the range ending at the
    chunk's own end when it has one. *)
Lemma getCurrentUtteranceIndex_idle d t dur :
  TranscriberData.isBusy d = false ->
  let chunks := TranscriberData.chunks d in
  (getCurrentUtteranceIndex (Some d) t dur = -1 /\
   forall j c, chunks !! j = Some c -> ~ inRange t c (lookupEnd chunks dur j c))
  \/
  (exists j c, getCurrentUtteranceIndex (Some d) t dur = Z.of_nat j /\
               chunks !! j = Some c /\ inRange t c (lookupEnd chunks dur j c) /\
               forall j' c', (j' < j)%nat -> chunks !! j' = Some c' ->
                             ~ inRange t c' (lookupEnd chunks dur j' c')).
Proof.
  intros Hbusy chunks. cbn [getCurrentUtteranceIndex]. rewrite Hbusy. cbn [andb].
  fold chunks.
  destruct (last chunks) as [lastChunk|] eqn:Hlast.
  - destruct (lookupLoop_spec chunks t dur (length chunks) 0)
      as [[Hr Hnone] | (j & c & Hr & _ & Hj & Hin & Hfirst)]; [lia| |].
    + left. split; [exact Hr|]. intros j c. apply Hnone. lia.
    + right. exists j, c.
      split; [exact Hr|]. split; [done|]. split; [done|].
      intros j' c' Hj'. apply Hfirst. lia.
  - left. split; [reflexivity|]. apply last_None in Hlast. rewrite Hlast.
    intros j c Hj. by rewrite lookup_nil in Hj.
Qed.

(** On a contiguous timeline the end computed by the loop and the end of
    the specification bound the same range. *)
Lemma lookupEnd_contiguous chunks dur t i c :
  contiguous chunks -> chunks !! i = Some c ->
  inRange t c (lookupEnd chunks dur i c) <-> inRange t c (specEffectiveEnd chunks dur i c).
Proof.
  intros Hcont Hi. unfold lookupEnd, specEffectiveEnd, inRange.
  destruct (chunks !! (i + 1)%nat) as [next|] eqn:Hnext.
  - destruct (snd (TranscriberChunk.timestamp c)) as [e|] eqn:He.
    + by rewrite (Hcont i c next e Hi Hnext He).
    + apply lookup_lt_Some in Hnext.
      destruct (Z.ltb_spec (Z.of_nat i) (Z.of_nat (length chunks) - 1)); [done|lia].
  - destruct (snd (TranscriberChunk.timestamp c)) as [e|]; [done|].
    apply lookup_ge_None in Hnext.
    destruct (Z.ltb_spec (Z.of_nat i) (Z.of_nat (length chunks) - 1)); [lia|done].
Qed.

(** On a timeline that is contiguous and not busy, the lookup returns the
    first index whose range in the sense of the specification holds
    [currentTime], and [-1] when no range does. *)
Lemma getCurrentUtteranceIndex_contiguous d t dur :
  TranscriberData.isBusy d = false ->
  contiguous (TranscriberData.chunks d) ->
  let chunks := TranscriberData.chunks d in
  (getCurrentUtteranceIndex (Some d) t dur = -1 /\
   forall j c, chunks !! j = Some c -> ~ inRange t c (specEffectiveEnd chunks dur j c))
  \/
  (exists j c, getCurrentUtteranceIndex (Some d) t dur = Z.of_nat j /\
               chunks !! j = Some c /\ inRange t c (specEffectiveEnd chunks dur j c) /\
               forall j' c', (j' < j)%nat -> chunks !! j' = Some c' ->
                             ~ inRange t c' (specEffectiveEnd chunks dur j' c')).
Proof.
  intros Hbusy Hcont chunks. subst chunks.
  destruct (getCurrentUtteranceIndex_idle d t dur Hbusy)
    as [[Hr Hnone] | (j & c & Hr & Hj & Hin & Hfirst)].
  - left. split; [exact Hr|]. intros j c Hj.
    rewrite <- (lookupEnd_contiguous _ dur t j c Hcont Hj). by apply Hnone.
  - right. exists j, c. split; [exact Hr|]. split; [done|].
    split; [by apply (lookupEnd_contiguous _ dur t j c Hcont Hj)|].
    intros j' c' Hlt Hj'.
    rewrite <- (lookupEnd_contiguous _ dur t j' c' Hcont Hj'). by apply Hfirst.
Qed.

(** C1 - active-segment boundary resolution, at a timeline with a gap:
    two chunks [0, 1) and [2, 3), not busy, duration 5, [currentTime] 1.5.
    The range of chunk 0 in the sense of the specification ends at the start
    of chunk 1 and holds 1.5, and the render marks chunk 0 as playing; the
    lookup ends the range at the chunk's own end and returns [-1]. *)
Theorem lookup_misses_gap :
  let chunks := [TranscriberChunk.mk "Hello" (0%Q, Some 1%Q) None;
                 TranscriberChunk.mk "world" (2%Q, Some 3%Q) None] in
  let d := TranscriberData.mk chunks "Hello world" false false None in
  getCurrentUtteranceIndex (Some d) 1.5%Q 5%Q = -1 /\
  (exists c, chunks !! 0%nat = Some c /\
             inRange 1.5%Q c (specEffectiveEnd chunks 5%Q 0 c) /\
             isPlaying chunks 1.5%Q 5%Q 0 c = true).
Proof.
  cbv zeta. split; [reflexivity|].
  eexists. split; [reflexivity|]. split; [|reflexivity].
  split; cbv; [discriminate | reflexivity].
Qed.

(** C3 - streaming override.  On a non-empty timeline that is busy, a
    [currentTime] at or after the start of the last chunk gives the last
    index, whatever the end of that chunk and the duration are. *)
Theorem streaming_returns_last
    (d : TranscriberData.t) (lastChunk : TranscriberChunk.t) (t dur : Q) :
  TranscriberData.chunks d !! (length (TranscriberData.chunks d) - 1)%nat = Some lastChunk ->
  TranscriberData.isBusy d = true ->
  (fst (TranscriberChunk.timestamp lastChunk) <= t)%Q ->
  getCurrentUtteranceIndex (Some d) t dur
  = Z.of_nat (length (TranscriberData.chunks d)) - 1.
Proof.
  intros Hlast Hbusy Hge. cbn [getCurrentUtteranceIndex].
  rewrite last_lookup.
  replace (Nat.pred (length (TranscriberData.chunks d)))
    with (length (TranscriberData.chunks d) - 1)%nat by lia.
  rewrite Hlast, Hbusy. apply num_ge_le in Hge. by rewrite Hge.
Qed.

(** While streaming, at 9.5 s the last chunk [2, 3) is past its end and
    still the active one. *)
Lemma streaming_returns_last_witness :
  getCurrentUtteranceIndex
    (Some (TranscriberData.mk
             [TranscriberChunk.mk "Hello" (0%Q, Some 2%Q) None;
              TranscriberChunk.mk "world" (2%Q, Some 3%Q) None]
             "Hello world" true false None)) 9.5%Q 5%Q
  = 1.
Proof.
  apply (streaming_returns_last
           (TranscriberData.mk
              [TranscriberChunk.mk "Hello" (0%Q, Some 2%Q) None;
               TranscriberChunk.mk "world" (2%Q, Some 3%Q) None]
              "Hello world" true false None)
           (TranscriberChunk.mk "world" (2%Q, Some 3%Q) None) 9.5%Q 5%Q).
  - reflexivity.
  - reflexivity.
  - cbv. discriminate.
Defined.

(** ** The keyboard handlers *)

(** Without an active chunk the listener returns before its [switch],
    whatever the key. *)
Lemma handleKeyDown_inactive c e a :
  getCurrentUtteranceIndex (transcribedData a) (Closure.currentTime c)
    (Closure.audioDuration c) = -1 ->
  handleKeyDown c e a = (a, []).
Proof.
  intros Hnone. unfold handleKeyDown.
  destruct (Closure.editingIndex c); [reflexivity|].
  destruct (KeyboardEvent.targetIsInput e); [reflexivity|].
  destruct (transcribedData a) as [d|]; [|reflexivity].
  destruct (length (TranscriberData.chunks d) =? 0)%nat; [reflexivity|].
  by rewrite Hnone.
Qed.

(** With an active chunk the listener runs its [switch]. *)
Lemma handleKeyDown_active c e a d i :
  Closure.editingIndex c = None ->
  KeyboardEvent.targetIsInput e = false ->
  transcribedData a = Some d ->
  getCurrentUtteranceIndex (Some d) (Closure.currentTime c) (Closure.audioDuration c)
  = Z.of_nat i ->
  (i < length (TranscriberData.chunks d))%nat /\
  handleKeyDown c e a = keySwitch c e a (TranscriberData.chunks d) (Z.of_nat i).
Proof.
  intros Hidle Htarget Hd Hactive.
  assert (Hi : (i < length (TranscriberData.chunks d))%nat).
  { destruct (getCurrentUtteranceIndex_range d (Closure.currentTime c)
                (Closure.audioDuration c)); lia. }
  split; [exact Hi|].
  unfold handleKeyDown. rewrite Hidle, Htarget, Hd, Hactive.
  destruct (Nat.eqb_spec (length (TranscriberData.chunks d)) 0); [lia|].
  destruct (Z.eqb_spec (Z.of_nat i) (-1)); [lia|]. reflexivity.
Qed.

(** C6 - keyboard no-op guard.  When the listener sees no edit session and
    no active chunk (the lookup gives [-1]: no transcript, an empty
    timeline, or a [currentTime] in no range), the keys ArrowRight,
    ArrowLeft, Enter and Space leave the state as it is and make no call. *)
Theorem keys_ignored_without_active_chunk
    (c : Closure.t) (e : KeyboardEvent.t) (a : App.t) :
  Closure.editingIndex c = None ->
  In (KeyboardEvent.key e) ["ArrowRight"; "ArrowLeft"; "Enter"; " "] ->
  getCurrentUtteranceIndex (transcribedData a) (Closure.currentTime c)
    (Closure.audioDuration c) = -1 ->
  handleKeyDown c e a = (a, []).
Proof.
  intros _ _. apply handleKeyDown_inactive.
Qed.

(** Space at 7 s, after the end of the only chunk [0, 2), with the audio
    element connected. *)
Lemma keys_ignored_without_active_chunk_witness :
  let a := App.mk
             (Hook.mk (Some (TranscriberData.mk
                               [TranscriberChunk.mk "Hello" (0%Q, Some 2%Q) None]
                               "Hello" false false None)) false false [])
             (View.mk 7%Q None EmptyString 1%Q 10%Q
                (Some (HTMLAudioElement.mk true 1%Q))) in
  keyDown (KeyboardEvent.mk " " false false) a = (a, []).
Proof.
  intros a. unfold keyDown.
  apply (keys_ignored_without_active_chunk (capture (App.view a))
           (KeyboardEvent.mk " " false false) a).
  - reflexivity.
  - cbn. auto.
  - reflexivity.
Defined.

(** The example of the specification: "Hello" [0, 2) and "world" from 2
    with no end, duration 5. *)
Example lookup_and_seek_example :
  let d := TranscriberData.mk
             [TranscriberChunk.mk "Hello" (0%Q, Some 2%Q) None;
              TranscriberChunk.mk "world" (2%Q, None) None]
             "Helloworld" false false None in
  let a t := App.mk (Hook.mk (Some d) false false [])
               (View.mk t None EmptyString 1%Q 5%Q None) in
  getCurrentUtteranceIndex (Some d) 1%Q 5%Q = 0 /\
  keyDown (KeyboardEvent.mk "ArrowRight" false false) (a 1%Q) = (a 1%Q, [OnSeek 2%Q]) /\
  getCurrentUtteranceIndex (Some d) 4%Q 5%Q = 1 /\
  keyDown (KeyboardEvent.mk "ArrowLeft" false false) (a 4%Q) = (a 4%Q, [OnSeek 0%Q]) /\
  getCurrentUtteranceIndex (Some d) 5%Q 5%Q = -1.
Proof. repeat split. Qed.

(** A commit in any state whose edit session is on an existing chunk. *)
Lemma handleEditKeyDown_commit a d i old tgt :
  View.editingIndex (App.view a) = Some i ->
  transcribedData a = Some d ->
  TranscriberData.chunks d !! i = Some old ->
  let newChunks :=
    <[i := TranscriberChunk.mk (View.editText (App.view a))
             (TranscriberChunk.timestamp old) (Some true)]> (TranscriberData.chunks d) in
  handleEditKeyDown (KeyboardEvent.mk "Enter" false tgt) a
  = Some (withView
            (withTranscript a
               (TranscriberData.mk newChunks
                  (join_empty (map TranscriberChunk.text newChunks))
                  (TranscriberData.isBusy d) (TranscriberData.isModelLoading d)
                  (TranscriberData.error d)))
            (setEditing (App.view a) None (View.editText (App.view a))),
          [PreventDefault; StopPropagation]).
Proof.
  intros Hi Hd Hold. unfold handleEditKeyDown. cbn [KeyboardEvent.key KeyboardEvent.shiftKey].
  cbn [String.eqb Ascii.eqb Bool.eqb negb andb]. by rewrite Hi, Hd, Hold.
Qed.

(** A commit changes no chunk but the edited one. *)
Lemma handleEditKeyDown_commit_others a d i old tgt a' calls d' j :
  View.editingIndex (App.view a) = Some i ->
  transcribedData a = Some d ->
  TranscriberData.chunks d !! i = Some old ->
  handleEditKeyDown (KeyboardEvent.mk "Enter" false tgt) a = Some (a', calls) ->
  transcribedData a' = Some d' ->
  j <> i ->
  TranscriberData.chunks d' !! j = TranscriberData.chunks d !! j.
Proof.
  intros Hi Hd Hold Hrun Hd' Hne.
  rewrite (handleEditKeyDown_commit a d i old tgt Hi Hd Hold) in Hrun.
  simplify_eq. cbn in Hd'. simplify_eq. cbn. by apply list_lookup_insert_ne.
Qed.

(** C4 - commit round-trip and cancel.  Let chunk [i] be the active one
    for a listener that sees no edit session.  Enter opens the edit session
    on [i] with the chunk's text as draft and leaves the transcript alone.
    After the draft is set to [T], Enter without shift in the textarea
    replaces chunk [i] by the text [T], the old timestamp and
    [isEdited = true], leaves the other chunks as they are, recomputes the
    transcript text as the concatenation of the chunk texts and closes the
    session; Escape instead closes the session and leaves the transcript
    as it was before Enter. *)
Theorem edit_commit_roundtrip
    (c : Closure.t) (e : KeyboardEvent.t) (a : App.t)
    (d : TranscriberData.t) (i : nat) :
  Closure.editingIndex c = None ->
  KeyboardEvent.key e = "Enter" ->
  KeyboardEvent.targetIsInput e = false ->
  transcribedData a = Some d ->
  getCurrentUtteranceIndex (Some d) (Closure.currentTime c) (Closure.audioDuration c)
  = Z.of_nat i ->
  exists old, TranscriberData.chunks d !! i = Some old /\
    let entered := fst (handleKeyDown c e a) in
    View.editingIndex (App.view entered) = Some i /\
    View.editText (App.view entered) = TranscriberChunk.text old /\
    transcribedData entered = Some d /\
    forall (T : string) (tgt shift : bool),
      (exists a' calls d',
          handleEditKeyDown (KeyboardEvent.mk "Enter" false tgt) (onEditChange T entered)
          = Some (a', calls) /\
          View.editingIndex (App.view a') = None /\
          transcribedData a' = Some d' /\
          TranscriberData.chunks d'
          = <[i := TranscriberChunk.mk T (TranscriberChunk.timestamp old) (Some true)]>
              (TranscriberData.chunks d) /\
          TranscriberData.chunks d' !! i
          = Some (TranscriberChunk.mk T (TranscriberChunk.timestamp old) (Some true)) /\
          TranscriberData.text d'
          = join_empty (map TranscriberChunk.text (TranscriberData.chunks d'))) /\
      (exists a' calls,
          handleEditKeyDown (KeyboardEvent.mk "Escape" shift tgt) (onEditChange T entered)
          = Some (a', calls) /\
          View.editingIndex (App.view a') = None /\
          transcribedData a' = Some d).
Proof.
  intros Hidle Hkey Htarget Hd Hactive.
  destruct (handleKeyDown_active c e a d i Hidle Htarget Hd Hactive) as [Hi ->].
  destruct (lookup_lt_is_Some_2 _ _ Hi) as [old Hold].
  exists old. split; [exact Hold|].
  unfold keySwitch. rewrite Hkey, Hidle. cbn [String.eqb Ascii.eqb Bool.eqb js_not_index].
  rewrite Nat2Z.id, Hold. cbn [fst].
  split; [reflexivity|]. split; [reflexivity|]. split; [exact Hd|].
  intros T tgt shift. split.
  - unfold handleEditKeyDown, onEditChange, transcribedData in *.
    cbn. rewrite Hd, Hold.
    eexists _, _, _. split; [reflexivity|].
    cbn. split; [reflexivity|]. split; [reflexivity|]. split; [reflexivity|].
    split; [|reflexivity]. by apply list_lookup_insert_eq.
  - unfold handleEditKeyDown, onEditChange, transcribedData in *. cbn.
    destruct shift; cbn; eexists _, _; (split; [reflexivity|]); cbn; auto.
Qed.

(** Enter on the first chunk at 1 s, the draft set to "Hullo", committed. *)
Lemma edit_commit_roundtrip_witness :
  let a := App.mk
             (Hook.mk (Some (TranscriberData.mk
                               [TranscriberChunk.mk "Hello" (0%Q, Some 2%Q) None;
                                TranscriberChunk.mk " world" (2%Q, None) None]
                               "Hello world" false false None)) false false [])
             (View.mk 1%Q None EmptyString 1%Q 5%Q None) in
  exists a' calls d',
    handleEditKeyDown (KeyboardEvent.mk "Enter" false true)
      (onEditChange "Hullo" (fst (keyDown (KeyboardEvent.mk "Enter" false false) a)))
    = Some (a', calls) /\
    transcribedData a' = Some d' /\
    TranscriberData.chunks d' !! 0%nat
    = Some (TranscriberChunk.mk "Hullo" (0%Q, Some 2%Q) (Some true)) /\
    TranscriberData.text d' = "Hullo world".
Proof.
  intros a. unfold keyDown.
  destruct (edit_commit_roundtrip (capture (App.view a))
              (KeyboardEvent.mk "Enter" false false) a
              (TranscriberData.mk
                 [TranscriberChunk.mk "Hello" (0%Q, Some 2%Q) None;
                  TranscriberChunk.mk " world" (2%Q, None) None]
                 "Hello world" false false None) 0%nat)
    as (old & Hold & _ & _ & _ & Hcommit); try reflexivity.
  injection Hold as <-.
  destruct (Hcommit "Hullo" true false) as [(a' & calls & d' & Hrun & _ & Hd' & Hchunks & Hi & Htext) _].
  exists a', calls, d'. split; [exact Hrun|]. split; [exact Hd'|]. split; [exact Hi|].
  rewrite Htext, Hchunks. reflexivity.
Defined.

(** ** Messages after a final update or an error *)

(** A message other than a partial or final update keeps the chunks and
    the text of a transcript that exists. *)
Lemma onWorkerMessage_other_keeps m h d :
  isTranscriptionUpdate m = false ->
  Hook.transcript h = Some d ->
  exists d', Hook.transcript (onWorkerMessage m h) = Some d' /\
             TranscriberData.chunks d' = TranscriberData.chunks d /\
             TranscriberData.text d' = TranscriberData.text d.
Proof.
  intros Hm Hd. destruct m; try discriminate; cbn; rewrite ?Hd; eauto.
Qed.

Lemma runMessages_other_keeps ms : forall h d,
  Forall (fun m => isTranscriptionUpdate m = false) ms ->
  Hook.transcript h = Some d ->
  exists d', Hook.transcript (runMessages ms h) = Some d' /\
             TranscriberData.chunks d' = TranscriberData.chunks d /\
             TranscriberData.text d' = TranscriberData.text d.
Proof.
  induction ms as [|m ms IH]; intros h d Hall Hd.
  - exists d. auto.
  - inversion Hall as [|? ? Hm Hms]; subst. cbn.
    destruct (onWorkerMessage_other_keeps m h d Hm Hd) as (d1 & Hd1 & Hc1 & Ht1).
    destruct (IH _ d1 Hms Hd1) as (d' & Hd' & Hc & Ht).
    exists d'. split; [exact Hd'|]. split; congruence.
Qed.

(** After a final update or an error there is a transcript object. *)
Lemma final_or_error_transcript m h :
  (exists text new, m = MsgComplete text new) \/ (exists message, m = MsgError message) ->
  exists d, Hook.transcript (onWorkerMessage m h) = Some d.
Proof.
  intros [(text & new & ->) | (message & ->)]; cbn; eauto.
Qed.

Lemma mergeChunks_content prev new :
  map (fun c => (TranscriberChunk.text c, TranscriberChunk.timestamp c)) (mergeChunks prev new)
  = map (fun ec => (EngineChunk.text ec, EngineChunk.timestamp ec)) new.
Proof.
  apply list_eq. intros k. rewrite !list_lookup_fmap, mergeChunks_lookup.
  by destruct (new !! k).
Qed.

(** C5, as stated, fails: a partial update that arrives after the final
    one replaces the text and the chunks of the timeline. *)
Lemma update_after_complete_changes_timeline :
  let final :=
    onWorkerMessage (MsgComplete "Hello" [EngineChunk.mk "Hello" (0%Q, Some 2%Q)])
      initialHook in
  timelineContents final
  = Some ([TranscriberChunk.mk "Hello" (0%Q, Some 2%Q) (Some false)], "Hello") /\
  timelineContents (onWorkerMessage (MsgUpdate "Bye" [EngineChunk.mk "Bye" (0%Q, None)]) final)
  = Some ([TranscriberChunk.mk "Bye" (0%Q, None) (Some false)], "Bye") /\
  timelineContents (onWorkerMessage (MsgUpdate "Bye" [EngineChunk.mk "Bye" (0%Q, None)]) final)
  <> timelineContents final.
Proof.
  cbv zeta. split; [reflexivity|]. split; [reflexivity|]. discriminate.
Qed.

(** C5, amended - after a final update or an error signal, worker messages
    other than partial and final updates leave the text and the chunks of
    the timeline unchanged; a partial or final update that arrives later is
    merged like any other: the timeline takes its text, and the texts and
    timestamps of its chunks. *)
Theorem timeline_after_final (h : Hook.t) (m : Message) :
  (exists text new, m = MsgComplete text new) \/ (exists message, m = MsgError message) ->
  let final := onWorkerMessage m h in
  (forall ms, Forall (fun m' => isTranscriptionUpdate m' = false) ms ->
              timelineContents (runMessages ms final) = timelineContents final) /\
  (forall u text new, u = MsgUpdate text new \/ u = MsgComplete text new ->
     exists d', Hook.transcript (onWorkerMessage u final) = Some d' /\
       TranscriberData.text d' = text /\
       map (fun c => (TranscriberChunk.text c, TranscriberChunk.timestamp c))
           (TranscriberData.chunks d')
       = map (fun ec => (EngineChunk.text ec, EngineChunk.timestamp ec)) new).
Proof.
  intros Hm final. split.
  - intros ms Hms.
    destruct (final_or_error_transcript m h Hm) as [d Hd]. fold final in Hd.
    destruct (runMessages_other_keeps ms final d Hms Hd) as (d' & Hd' & Hc & Ht).
    unfold timelineContents. rewrite Hd, Hd', Hc, Ht. reflexivity.
  - intros u text new [-> | ->]; cbn; eexists; (split; [reflexivity|]); cbn;
      (split; [reflexivity|]); apply mergeChunks_content.
Qed.

(** After a final update, model-file messages and a second error keep the
    timeline. *)
Lemma timeline_after_final_witness :
  let final :=
    onWorkerMessage (MsgComplete "Hello" [EngineChunk.mk "Hello" (0%Q, Some 2%Q)])
      initialHook in
  timelineContents (runMessages [MsgReady; MsgDone "model.onnx"; MsgError "late"] final)
  = timelineContents final.
Proof.
  intros final.
  apply (timeline_after_final initialHook
           (MsgComplete "Hello" [EngineChunk.mk "Hello" (0%Q, Some 2%Q)])).
  - left. eauto.
  - repeat constructor.
Defined.

(** ** The playback speed *)

Lemma Math_min_clamp x :
  ((x <= 4)%Q -> (Math_min 4 x == x)%Q) /\ ((4 <= x)%Q -> (Math_min 4 x == 4)%Q).
Proof.
  unfold Math_min. destruct (Qle_bool 4 x) eqn:H.
  - apply Qle_bool_iff in H. split; intros; lra.
  - assert (~ (4 <= x)%Q) by (rewrite <- Qle_bool_iff, H; discriminate).
    split; intros; lra.
Qed.

Lemma Math_max_clamp x :
  ((0.25 <= x)%Q -> (Math_max 0.25 x == x)%Q) /\
  ((x <= 0.25)%Q -> (Math_max 0.25 x == 0.25)%Q).
Proof.
  unfold Math_max. destruct (Qle_bool 0.25 x) eqn:H.
  - apply Qle_bool_iff in H. split; intros; lra.
  - assert (~ (0.25 <= x)%Q) by (rewrite <- Qle_bool_iff, H; discriminate).
    split; intros; lra.
Qed.

Lemma onSpeedGrid_up r : onSpeedGrid r -> onSpeedGrid (Math_min 4 (r + 0.25)).
Proof.
  intros (Hlo & Hhi & k & Hk). unfold Math_min.
  destruct (Qle_bool 4 (r + 0.25)) eqn:H.
  - repeat split; try lra. exists 16. reflexivity.
  - assert (~ (4 <= r + 0.25)%Q) by (rewrite <- Qle_bool_iff, H; discriminate).
    repeat split; try lra. exists (k + 1).
    rewrite inject_Z_plus. change (inject_Z 1) with 1%Q. lra.
Qed.

Lemma onSpeedGrid_down r : onSpeedGrid r -> onSpeedGrid (Math_max 0.25 (r - 0.25)).
Proof.
  intros (Hlo & Hhi & k & Hk). unfold Math_max.
  destruct (Qle_bool 0.25 (r - 0.25)) eqn:H.
  - apply Qle_bool_iff in H.
    repeat split; try lra. exists (k + -1).
    rewrite inject_Z_plus. change (inject_Z (-1)) with (-1 # 1)%Q. lra.
  - repeat split; try lra. exists 1. reflexivity.
Qed.

Lemma onSpeedGrid_initial : onSpeedGrid 1.
Proof. repeat split; try lra. exists 4. reflexivity. Qed.

Lemma viewOnGrid_setEditing v i draft : viewOnGrid v -> viewOnGrid (setEditing v i draft).
Proof. intros H. exact H. Qed.

Lemma viewOnGrid_setPaused v el p :
  View.audioRef v = Some el -> viewOnGrid v -> viewOnGrid (setPaused v el p).
Proof.
  intros Hel [Hs Hr]. split; [exact Hs|].
  intros el' [= <-]. cbn. by apply Hr.
Qed.

Lemma viewOnGrid_setSpeed v el q : onSpeedGrid q -> viewOnGrid (setSpeed v el q).
Proof. intros Hq. split; [exact Hq|]. by intros el' [= <-]. Qed.

Lemma viewOnGrid_setTimes v time duration : viewOnGrid v -> viewOnGrid (setTimes v time duration).
Proof. intros H. exact H. Qed.

Lemma keySwitch_onGrid c e a chunks currentIndex :
  onSpeedGrid (Closure.playbackSpeed c) ->
  viewOnGrid (App.view a) ->
  viewOnGrid (App.view (fst (keySwitch c e a chunks currentIndex))).
Proof.
  intros Hc Ha. unfold keySwitch.
  repeat case_match; cbn [fst App.view withView];
    auto using viewOnGrid_setEditing, viewOnGrid_setPaused, viewOnGrid_setSpeed,
      onSpeedGrid_up, onSpeedGrid_down.
Qed.

Lemma handleKeyDown_onGrid c e a :
  onSpeedGrid (Closure.playbackSpeed c) ->
  viewOnGrid (App.view a) ->
  viewOnGrid (App.view (fst (handleKeyDown c e a))).
Proof.
  intros Hc Ha. unfold handleKeyDown.
  repeat case_match; cbn [fst]; auto using keySwitch_onGrid.
Qed.

Lemma handleEditKeyDown_onGrid e a a' calls :
  handleEditKeyDown e a = Some (a', calls) ->
  viewOnGrid (App.view a) -> viewOnGrid (App.view a').
Proof.
  unfold handleEditKeyDown. intros Hrun Ha.
  repeat case_match; simplify_eq; cbn [App.view withView]; auto using viewOnGrid_setEditing.
Qed.

Lemma step_onGrid ev s s' calls :
  step ev s = Some (s', calls) -> sysOnGrid s -> sysOnGrid s'.
Proof.
  intros Hstep [Hv Hl]. unfold sysOnGrid.
  destruct ev; cbn in Hstep.
  - (* EvKeyDown *)
    simplify_eq. cbn. split; [by apply handleKeyDown_onGrid|done].
  - (* EvRegister *)
    simplify_eq. cbn. split; [done|apply (proj1 Hv)].
  - (* EvEditKeyDown *)
    destruct (textareaRendered (Sys.app s)); [|discriminate].
    destruct (handleEditKeyDown e (Sys.app s)) as [[a' calls']|] eqn:Hrun;
      cbn in Hstep; simplify_eq.
    cbn. split; [by eapply handleEditKeyDown_onGrid|done].
  - (* EvEditChange *)
    destruct (textareaRendered (Sys.app s)); simplify_eq. by cbn.
  - (* EvTimeUpdate *)
    simplify_eq. by cbn.
  - (* EvLoadedMetadata *)
    simplify_eq. by cbn.
  - (* EvUtteranceClick *)
    case_decide; [discriminate|].
    unfold handleUtteranceClick in Hstep.
    repeat case_match; cbn in Hstep; simplify_eq. by cbn.
  - (* EvConnectAudio *)
    simplify_eq. destruct found as [[[p time] duration]|]; cbn; [|done].
    split; [|done]. split; [apply (proj1 Hv)|]. intros el [= <-]. apply (proj1 Hv).
  - (* EvPausedChanged *)
    simplify_eq. cbn. split; [|done]. unfold pausedChanged.
    case_match; [by apply viewOnGrid_setPaused|done].
  - (* EvWorker *)
    simplify_eq. by cbn.
  - (* EvInputChange *)
    simplify_eq. by cbn.
  - (* EvStart *)
    simplify_eq. by cbn.
Qed.

Lemma reachable_onGrid s : reachable s -> sysOnGrid s.
Proof.
  induction 1 as [|ev s s' calls _ IH Hstep].
  - split; [split|]; cbn; [apply onSpeedGrid_initial|discriminate|apply onSpeedGrid_initial].
  - by eapply step_onGrid.
Qed.

(** C7, as stated, fails: with no edit session and the audio element
    connected, but no active chunk (here the initial, empty transcript),
    ArrowUp leaves the speed at 1 and makes no call. *)
Lemma arrowUp_ignored_without_active_chunk :
  let a := App.mk initialHook
             (View.mk 0%Q None EmptyString 1%Q 0%Q (Some (HTMLAudioElement.mk true 1%Q))) in
  let r := keyDown (KeyboardEvent.mk "ArrowUp" false false) a in
  View.editingIndex (App.view a) = None /\
  View.audioRef (App.view a) <> None /\
  r = (a, []) /\
  ~ (View.playbackSpeed (App.view (fst r)) == 1 + 0.25)%Q.
Proof.
  cbv zeta. split; [reflexivity|]. split; [discriminate|]. split; [reflexivity|].
  cbn. intros H. discriminate H.
Qed.

(** C7, amended - playback-rate adjustment.  When the listener sees no
    edit session, the key's target is not an input or a textarea, a chunk is
    active and the audio element is connected, ArrowUp sets the playback
    speed and the element's rate to [r + 0.25] clamped at 4 and ArrowDown to
    [r - 0.25] clamped at 0.25, [r] being the playback speed the listener
    reads.  In every reachable state the playback speed, and the rate given
    to the element, are within [0.25, 4] and a multiple of 0.25. *)
Theorem playback_speed_adjustment :
  (forall (c : Closure.t) (e : KeyboardEvent.t) (a : App.t) (d : TranscriberData.t)
          (i : nat) (el : HTMLAudioElement.t),
      Closure.editingIndex c = None ->
      KeyboardEvent.targetIsInput e = false ->
      transcribedData a = Some d ->
      getCurrentUtteranceIndex (Some d) (Closure.currentTime c) (Closure.audioDuration c)
      = Z.of_nat i ->
      View.audioRef (App.view a) = Some el ->
      let r := Closure.playbackSpeed c in
      let a' := fst (handleKeyDown c e a) in
      let speed' := View.playbackSpeed (App.view a') in
      (KeyboardEvent.key e = "ArrowUp" ->
       ((r + 0.25 <= 4)%Q -> (speed' == r + 0.25)%Q) /\
       ((4 <= r + 0.25)%Q -> (speed' == 4)%Q) /\
       View.audioRef (App.view a')
       = Some (HTMLAudioElement.mk (HTMLAudioElement.paused el) speed') /\
       snd (handleKeyDown c e a) = [PreventDefault; SetPlaybackRate speed']) /\
      (KeyboardEvent.key e = "ArrowDown" ->
       ((0.25 <= r - 0.25)%Q -> (speed' == r - 0.25)%Q) /\
       ((r - 0.25 <= 0.25)%Q -> (speed' == 0.25)%Q) /\
       View.audioRef (App.view a')
       = Some (HTMLAudioElement.mk (HTMLAudioElement.paused el) speed') /\
       snd (handleKeyDown c e a) = [PreventDefault; SetPlaybackRate speed'])) /\
  (forall s : Sys.t, reachable s ->
      onSpeedGrid (View.playbackSpeed (App.view (Sys.app s))) /\
      forall el, View.audioRef (App.view (Sys.app s)) = Some el ->
                 onSpeedGrid (HTMLAudioElement.playbackRate el)).
Proof.
  split.
  - intros c e a d i el Hidle Htarget Hd Hactive Hel r a' speed'.
    subst a' speed'.
    destruct (handleKeyDown_active c e a d i Hidle Htarget Hd Hactive) as [_ ->].
    unfold keySwitch. split; intros ->; cbn [String.eqb Ascii.eqb Bool.eqb];
      rewrite Hel; cbn [fst snd App.view withView setSpeed View.playbackSpeed View.audioRef].
    + destruct (Math_min_clamp (r + 0.25)) as [Hin Hout]. auto.
    + destruct (Math_max_clamp (r - 0.25)) as [Hin Hout]. auto.
  - intros s Hs. apply (reachable_onGrid s Hs).
Qed.

(** ArrowUp at speed 3.75 on an active chunk gives 4; a second ArrowUp,
    read by a listener registered after the first, stays at 4. *)
Lemma playback_speed_adjustment_witness :
  let a := App.mk
             (Hook.mk (Some (TranscriberData.mk
                               [TranscriberChunk.mk "Hello" (0%Q, Some 2%Q) None]
                               "Hello" false false None)) false false [])
             (View.mk 1%Q None EmptyString 3.75%Q 5%Q
                (Some (HTMLAudioElement.mk true 3.75%Q))) in
  let up := KeyboardEvent.mk "ArrowUp" false false in
  (View.playbackSpeed (App.view (fst (keyDown up a))) == 4)%Q /\
  (View.playbackSpeed (App.view (fst (keyDown up (fst (keyDown up a))))) == 4)%Q /\
  onSpeedGrid (View.playbackSpeed (App.view (Sys.app initialSys))).
Proof.
  intros a up.
  destruct playback_speed_adjustment as [Hkeys Hreach].
  split; [|split].
  - destruct (Hkeys (capture (App.view a)) up a
                (TranscriberData.mk
                   [TranscriberChunk.mk "Hello" (0%Q, Some 2%Q) None]
                   "Hello" false false None)
                0%nat (HTMLAudioElement.mk true 3.75%Q)
                eq_refl eq_refl eq_refl eq_refl eq_refl) as [Hup _].
    destruct (Hup eq_refl) as (_ & Hout & _). apply Hout. cbv. discriminate.
  - destruct (Hkeys (capture (App.view (fst (keyDown up a)))) up (fst (keyDown up a))
                (TranscriberData.mk
                   [TranscriberChunk.mk "Hello" (0%Q, Some 2%Q) None]
                   "Hello" false false None)
                0%nat (HTMLAudioElement.mk true 4%Q)
                eq_refl eq_refl eq_refl eq_refl eq_refl) as [Hup _].
    destruct (Hup eq_refl) as (_ & Hout & _). apply Hout. cbv. discriminate.
  - apply (Hreach initialSys). constructor.
Defined.

(** The listener reads the speed of the render it was registered in: two
    ArrowUp events with no registration in between both compute 1 + 0.25. *)
Lemma arrowUp_twice_same_listener :
  let a := App.mk
             (Hook.mk (Some (TranscriberData.mk
                               [TranscriberChunk.mk "Hello" (0%Q, Some 2%Q) None]
                               "Hello" false false None)) false false [])
             (View.mk 1%Q None EmptyString 1%Q 5%Q
                (Some (HTMLAudioElement.mk true 1%Q))) in
  let up := EvKeyDown (KeyboardEvent.mk "ArrowUp" false false) in
  let s0 := Sys.mk a (capture (App.view a)) in
  exists s1 s2 calls1 calls2,
    step up s0 = Some (s1, calls1) /\ step up s1 = Some (s2, calls2) /\
    (View.playbackSpeed (App.view (Sys.app s1)) == 1.25)%Q /\
    (View.playbackSpeed (App.view (Sys.app s2)) == 1.25)%Q.
Proof.
  cbv zeta. eexists _, _, _, _.
  split; [reflexivity|]. split; [reflexivity|]. split; reflexivity.
Qed.

(** * Further properties *)

(** ** The worker message handler *)

(** X1 - the two halves of the hook's state.  A message about model files
    leaves the transcript and [isBusy] as they are; a partial update, a
    final update or an error leaves the progress items and [isModelLoading]
    as they are. *)
Theorem messages_touch_one_half (m : Message) (h : Hook.t) :
  let h' := onWorkerMessage m h in
  if isModelFileMessage m
  then Hook.transcript h' = Hook.transcript h /\ Hook.isBusy h' = Hook.isBusy h
  else Hook.progressItems h' = Hook.progressItems h /\
       Hook.isModelLoading h' = Hook.isModelLoading h.
Proof. destruct m; cbn; auto. Qed.

Lemma filter_keep_all {A} (f : A -> bool) (l : list A) :
  Forall (fun x => f x = true) l -> List.filter f l = l.
Proof.
  induction 1 as [|x l Hx _ IH]; cbn; [reflexivity|]. by rewrite Hx, IH.
Qed.

Lemma noItemFor_eqb file items :
  noItemFor file items ->
  Forall (fun item => negb (String.eqb (ProgressItem.file item) file) = true) items.
Proof.
  intros Hnone. eapply Forall_impl; [exact Hnone|]. intros item Hne.
  apply negb_true_iff, String.eqb_neq, Hne.
Qed.

(** X2 - initiate and done.  When no progress item is about the file of
    [item], the messages "initiate" with [item] and then "done" for its file
    give back the progress items there were. *)
Theorem initiate_done_roundtrip (item : ProgressItem.t) (h : Hook.t) :
  noItemFor (ProgressItem.file item) (Hook.progressItems h) ->
  Hook.progressItems
    (onWorkerMessage (MsgDone (ProgressItem.file item))
       (onWorkerMessage (MsgInitiate item) h))
  = Hook.progressItems h.
Proof.
  intros Hnone. cbn. rewrite List.filter_app. cbn.
  rewrite String.eqb_refl. cbn. rewrite app_nil_r.
  apply filter_keep_all, noItemFor_eqb, Hnone.
Qed.

Lemma initiate_done_roundtrip_witness :
  let other := ProgressItem.mk "tokenizer.json" 10 0.5 20 "Xenova/whisper-tiny" "progress" in
  let item := ProgressItem.mk "model.onnx" 0 0 100 "Xenova/whisper-tiny" "initiate" in
  Hook.progressItems
    (onWorkerMessage (MsgDone "model.onnx")
       (onWorkerMessage (MsgInitiate item) (Hook.mk None true true [other])))
  = [other].
Proof.
  intros other item.
  apply (initiate_done_roundtrip item (Hook.mk None true true [other])).
  repeat constructor. discriminate.
Defined.

(** X3 - a file without a progress item.  "progress" and "done" for a file
    that no progress item is about leave the whole state unchanged. *)
Theorem unknown_file_ignored (file : string) (progress : Q) (h : Hook.t) :
  noItemFor file (Hook.progressItems h) ->
  onWorkerMessage (MsgProgress file progress) h = h /\
  onWorkerMessage (MsgDone file) h = h.
Proof.
  intros Hnone. destruct h as [t b l items]. cbn in *. split; f_equal.
  - induction Hnone as [|item items Hne _ IH]; cbn; [reflexivity|].
    apply String.eqb_neq in Hne. by rewrite Hne, IH.
  - apply filter_keep_all, noItemFor_eqb, Hnone.
Qed.

Lemma unknown_file_ignored_witness :
  let h := Hook.mk None true true
             [ProgressItem.mk "tokenizer.json" 10 0.5 20 "Xenova/whisper-tiny" "progress"] in
  onWorkerMessage (MsgProgress "model.onnx" 0.25) h = h /\
  onWorkerMessage (MsgDone "model.onnx") h = h.
Proof.
  intros h. apply (unknown_file_ignored "model.onnx" 0.25 h).
  repeat constructor. discriminate.
Defined.

(** X4 - a restart discards the edit marks.  After [onInputChange], or
    after [postRequest] with audio, a partial or final update gives a
    transcript in which no chunk is marked as edited, and no error. *)
Theorem restart_discards_edits (h : Hook.t) (m : Message) :
  isTranscriptionUpdate m = true ->
  forall h0, h0 = onInputChange h \/ h0 = postRequest true h ->
  exists d', Hook.transcript (onWorkerMessage m h0) = Some d' /\
    Forall (fun c => TranscriberChunk.isEdited c = Some false) (TranscriberData.chunks d') /\
    TranscriberData.error d' = None.
Proof.
  intros Hm h0 Hh0.
  destruct (onWorkerMessage_update m h0 Hm) as (text & new & busy & _ & ->).
  eexists. split; [reflexivity|]. split; [|reflexivity].
  cbn [TranscriberData.chunks]. apply Forall_lookup. intros k c.
  rewrite mergeChunks_lookup. intros Hc.
  apply fmap_Some in Hc as (ec & _ & ->). cbn.
  destruct Hh0 as [-> | ->]; cbn; [|reflexivity].
  by rewrite lookup_nil.
Qed.

Lemma restart_discards_edits_witness :
  let h := Hook.mk (Some (TranscriberData.mk
                            [TranscriberChunk.mk "Hullo" (0%Q, Some 2%Q) (Some true)]
                            "Hullo" false false None)) false false [] in
  exists d',
    Hook.transcript
      (onWorkerMessage (MsgUpdate "Hello" [EngineChunk.mk "Hello" (0%Q, None)])
         (postRequest true h)) = Some d' /\
    TranscriberData.chunks d' = [TranscriberChunk.mk "Hello" (0%Q, None) (Some false)].
Proof.
  intros h.
  destruct (restart_discards_edits h
              (MsgUpdate "Hello" [EngineChunk.mk "Hello" (0%Q, None)]) eq_refl
              (postRequest true h) (or_intror eq_refl)) as (d' & Hd' & _ & _).
  exists d'. split; [exact Hd'|]. cbn in Hd'. by injection Hd' as <-.
Defined.

(** X5 - an edit mark does not come back.  When an update has no chunk at
    index [k], a later update that has one again gives a chunk at [k] that
    is not marked as edited, whatever the mark was before. *)
Theorem dropped_index_loses_edit
    (h : Hook.t) (u1 u2 : Message) (text1 text2 : string)
    (new1 new2 : list EngineChunk.t) (k : nat) (ec : EngineChunk.t) :
  u1 = MsgUpdate text1 new1 \/ u1 = MsgComplete text1 new1 ->
  u2 = MsgUpdate text2 new2 \/ u2 = MsgComplete text2 new2 ->
  (length new1 <= k)%nat ->
  new2 !! k = Some ec ->
  exists d', Hook.transcript (onWorkerMessage u2 (onWorkerMessage u1 h)) = Some d' /\
    TranscriberData.chunks d' !! k
    = Some (TranscriberChunk.mk (EngineChunk.text ec) (EngineChunk.timestamp ec) (Some false)).
Proof.
  intros H1 H2 Hlen Hk.
  assert (Hgone : forall busy,
             prevIsEdited
               (Some (TranscriberData.mk (mergeChunks (Hook.transcript h) new1)
                        text1 busy false None)) k = None).
  { intros busy. cbn. rewrite (lookup_ge_None_2 _ k); [reflexivity|].
    by rewrite mergeChunks_length. }
  destruct H1 as [-> | ->], H2 as [-> | ->];
    unfold onWorkerMessage; cbn [Hook.transcript];
    eexists; (split; [reflexivity|]); cbn [TranscriberData.chunks];
    rewrite mergeChunks_lookup, Hk; cbn [fmap option_fmap option_map];
    by rewrite Hgone.
Qed.

Lemma dropped_index_loses_edit_witness :
  let h := Hook.mk (Some (TranscriberData.mk
                            [TranscriberChunk.mk "a" (0%Q, Some 1%Q) None;
                             TranscriberChunk.mk "bee" (1%Q, Some 2%Q) (Some true)]
                            "abee" true false None)) true false [] in
  exists d',
    Hook.transcript
      (onWorkerMessage
         (MsgUpdate "ab" [EngineChunk.mk "a" (0%Q, Some 1%Q); EngineChunk.mk "b" (1%Q, None)])
         (onWorkerMessage (MsgUpdate "a" [EngineChunk.mk "a" (0%Q, None)]) h)) = Some d' /\
    TranscriberData.chunks d' !! 1%nat
    = Some (TranscriberChunk.mk "b" (1%Q, None) (Some false)).
Proof.
  intros h.
  apply (dropped_index_loses_edit h
           (MsgUpdate "a" [EngineChunk.mk "a" (0%Q, None)])
           (MsgUpdate "ab" [EngineChunk.mk "a" (0%Q, Some 1%Q); EngineChunk.mk "b" (1%Q, None)])
           "a" "ab" [EngineChunk.mk "a" (0%Q, None)]
           [EngineChunk.mk "a" (0%Q, Some 1%Q); EngineChunk.mk "b" (1%Q, None)]
           1%nat (EngineChunk.mk "b" (1%Q, None))).
  - by left.
  - by left.
  - cbn. lia.
  - reflexivity.
Defined.

(** ** Stored settings *)

Lemma settingKey_inj key key' : settingKey key = settingKey key' -> key = key'.
Proof. unfold settingKey. cbn. intros H. by simplify_eq. Qed.

(** X6 - a stored setting is read back.  After [updateSetting key value],
    when [JSON.parse] gives the value back from its [JSON.stringify],
    [getStoredSetting key] returns [value] whatever the default is, and the
    reading of every other key is what it was before.  A key that is not
    stored, or whose stored text [JSON.parse] rejects, reads as the
    default. *)
Theorem stored_setting_roundtrip {T : Type}
    (JSON_parse : string -> option T) (JSON_stringify : T -> string)
    (localStorage : gmap string string) (key : string) (value : T) :
  JSON_parse (JSON_stringify value) = Some value ->
  (forall defaultValue,
      getStoredSetting JSON_parse (updateSetting JSON_stringify key value localStorage)
        key defaultValue = value) /\
  (forall key' defaultValue, key' <> key ->
      getStoredSetting JSON_parse (updateSetting JSON_stringify key value localStorage)
        key' defaultValue
      = getStoredSetting JSON_parse localStorage key' defaultValue) /\
  (forall key' defaultValue,
      localStorage !! settingKey key' = None \/
      (exists stored, localStorage !! settingKey key' = Some stored /\
                      JSON_parse stored = None) ->
      getStoredSetting JSON_parse localStorage key' defaultValue = defaultValue).
Proof.
  intros Hround. unfold getStoredSetting, updateSetting. split; [|split].
  - intros defaultValue. by rewrite lookup_insert_eq, Hround.
  - intros key' defaultValue Hne. rewrite lookup_insert_ne; [reflexivity|].
    intros Heq. apply Hne. symmetry. by apply settingKey_inj.
  - intros key' defaultValue [-> | (stored & -> & ->)]; reflexivity.
Qed.

(** The flag [quantized], stored as the JSON text [true] or [false]. *)
Lemma stored_setting_roundtrip_witness :
  let parse (s : string) :=
    if String.eqb s "true" then Some true
    else if String.eqb s "false" then Some false else None in
  let stringify (b : bool) : string := if b then "true" else "false" in
  let storage : gmap string string := {[ "transcriber_model" := "Xenova/whisper-tiny" ]} in
  getStoredSetting parse (updateSetting stringify "quantized" false storage) "quantized" true
  = false.
Proof.
  intros parse stringify storage.
  apply (stored_setting_roundtrip parse stringify storage "quantized" false).
  reflexivity.
Defined.

(** ** The model list *)

(** X7 - every offered model has a size.  When every entry of the table
    lists at least one size, each model that passes the two filters has a
    size for the chosen [quantized], so no label reads "undefined"; with
    [multilingual] no distil-whisper model is offered. *)
Theorem offered_model_has_size
    (table : list (string * list nat)) (quantized multilingual : bool)
    (entry : string * list nat) :
  Forall (fun e => snd e <> []) table ->
  In entry (offeredModels table quantized multilingual) ->
  In entry table /\
  (exists size, modelSize quantized (snd entry) = Some size) /\
  (multilingual = true -> isDistil (fst entry) = false).
Proof.
  intros Hsizes Hin. unfold offeredModels in Hin.
  apply List.filter_In in Hin as [Hin Hlang].
  apply List.filter_In in Hin as [Hin Hquant].
  split; [exact Hin|]. split.
  - rewrite Forall_forall in Hsizes. apply list_elem_of_In, Hsizes in Hin.
    unfold modelSize. destruct quantized.
    + destruct (snd entry) as [|size ?]; [done|]. by exists size.
    + cbn in Hquant. apply Nat.eqb_eq in Hquant.
      destruct (snd entry) as [|? [|size ?]]; try discriminate. by exists size.
  - intros ->. cbn in Hlang. by apply negb_true_iff in Hlang.
Qed.

(** Without quantization only the two models with a second size are
    offered. *)
Lemma offered_model_has_size_witness :
  offeredModels models false false
  = [("Xenova/whisper-tiny", [41; 152]%nat); ("Xenova/whisper-base", [77; 291]%nat)] /\
  optionLabel false false ("Xenova/whisper-base", [77; 291]%nat)
  = "Xenova/whisper-base.en (291MB)" /\
  exists size, modelSize false [77; 291]%nat = Some size.
Proof.
  split; [reflexivity|]. split; [reflexivity|].
  apply (offered_model_has_size models false false
           ("Xenova/whisper-base", [77; 291]%nat)).
  - repeat constructor; discriminate.
  - cbn. auto.
Defined.

(** ** The lookup and the highlight *)

Lemma startsSorted_le chunks : forall i j c c',
  startsSorted chunks = true -> (i <= j)%nat ->
  chunks !! i = Some c -> chunks !! j = Some c' ->
  (fst (TranscriberChunk.timestamp c) <= fst (TranscriberChunk.timestamp c'))%Q.
Proof.
  induction chunks as [|x rest IH]; intros i j c c' Hsorted Hij Hi Hj; [done|].
  destruct i as [|i], j as [|j]; try lia.
  - cbn in Hi, Hj. simplify_eq. apply Qle_refl.
  - cbn in Hi, Hj. simplify_eq.
    destruct rest as [|next rest']; [done|].
    cbn [startsSorted] in Hsorted. apply andb_true_iff in Hsorted as [Hle Hrest].
    apply Qle_bool_iff in Hle. eapply Qle_trans; [exact Hle|].
    apply (IH 0%nat j next c' Hrest); [lia|done|done].
  - cbn in Hi, Hj. apply (IH i j c c'); [|lia|done|done].
    destruct rest as [|next rest']; [done|].
    cbn [startsSorted] in Hsorted. by apply andb_true_iff in Hsorted as [_ Hrest].
Qed.

(** The end the render uses for a chunk that has a successor. *)
Lemma renderEnd_next chunks dur i c next :
  chunks !! (i + 1)%nat = Some next ->
  renderEnd chunks dur i c = fst (TranscriberChunk.timestamp next).
Proof.
  intros Hnext. unfold renderEnd. rewrite Hnext.
  apply lookup_lt_Some in Hnext.
  destruct (Z.ltb_spec (Z.of_nat i) (Z.of_nat (length chunks) - 1)); [done|lia].
Qed.

Lemma isPlaying_inRange chunks t dur i c :
  isPlaying chunks t dur i c = true <-> inRange t c (renderEnd chunks dur i c).
Proof. apply inRange_bool. Qed.

Lemma isPlaying_before chunks t dur i j c c' :
  startsSorted chunks = true -> (i < j)%nat ->
  chunks !! i = Some c -> chunks !! j = Some c' ->
  isPlaying chunks t dur i c = true -> isPlaying chunks t dur j c' = true -> False.
Proof.
  intros Hsorted Hij Hi Hj [_ Hlt]%isPlaying_inRange [Hge _]%isPlaying_inRange.
  destruct (lookup_lt_is_Some_2 chunks (i + 1)%nat) as [next Hnext].
  { apply lookup_lt_Some in Hj. lia. }
  rewrite (renderEnd_next chunks dur i c next Hnext) in Hlt.
  assert (Hle := startsSorted_le chunks (i + 1)%nat j next c' Hsorted ltac:(lia) Hnext Hj).
  lra.
Qed.

(** X8 - one highlight.  When the start times never decrease, at most one
    chunk is rendered as playing at any [currentTime]. *)
Theorem one_chunk_highlighted
    (chunks : list TranscriberChunk.t) (t dur : Q) (i j : nat)
    (c c' : TranscriberChunk.t) :
  startsSorted chunks = true ->
  chunks !! i = Some c -> chunks !! j = Some c' ->
  isPlaying chunks t dur i c = true -> isPlaying chunks t dur j c' = true ->
  i = j /\ c = c'.
Proof.
  intros Hsorted Hi Hj Pi Pj.
  assert (i = j) as ->.
  { destruct (Nat.lt_total i j) as [Hlt | [-> | Hlt]]; [|done|].
    - destruct (isPlaying_before chunks t dur i j c c' Hsorted Hlt Hi Hj Pi Pj).
    - destruct (isPlaying_before chunks t dur j i c' c Hsorted Hlt Hj Hi Pj Pi). }
  split; [reflexivity|congruence].
Qed.

Lemma one_chunk_highlighted_witness :
  let chunks := [TranscriberChunk.mk "Hello" (0%Q, Some 2%Q) None;
                 TranscriberChunk.mk "world" (2%Q, None) None] in
  isPlaying chunks 1%Q 5%Q 0 (TranscriberChunk.mk "Hello" (0%Q, Some 2%Q) None) = true /\
  (0 = 0)%nat /\
  TranscriberChunk.mk "Hello" (0%Q, Some 2%Q) None
  = TranscriberChunk.mk "Hello" (0%Q, Some 2%Q) None.
Proof.
  intros chunks. split; [reflexivity|].
  apply (one_chunk_highlighted chunks 1%Q 5%Q 0%nat 0%nat
           (TranscriberChunk.mk "Hello" (0%Q, Some 2%Q) None)
           (TranscriberChunk.mk "Hello" (0%Q, Some 2%Q) None)); reflexivity.
Defined.

(** X9 - the lookup never leaves the list.  For every transcript, busy
    or not, the lookup returns [-1] or an index of a chunk; it returns [-1]
    when there is no transcript or no chunk. *)
Theorem lookup_index_in_bounds (data : option TranscriberData.t) (t dur : Q) :
  let r := getCurrentUtteranceIndex data t dur in
  (r = -1 \/ exists i c d, r = Z.of_nat i /\ data = Some d /\
                           TranscriberData.chunks d !! i = Some c) /\
  (default [] (TranscriberData.chunks <$> data) = [] -> r = -1).
Proof.
  intros r. split.
  - destruct data as [d|]; [|by left].
    destruct (getCurrentUtteranceIndex_range d t dur) as [Hnone | Hrange]; [by left|].
    right. fold r in Hrange.
    destruct (lookup_lt_is_Some_2 (TranscriberData.chunks d) (Z.to_nat r)) as [c Hc]; [lia|].
    exists (Z.to_nat r), c, d. split; [lia|done].
  - destruct data as [d|]; [|done]. cbn. subst r. cbn. by intros ->.
Qed.

(** The scan is what the lookup does whenever the special case of a busy
    transcript does not apply. *)
Lemma getCurrentUtteranceIndex_scan d t dur :
  (TranscriberData.isBusy d = false \/
   exists lastChunk, last (TranscriberData.chunks d) = Some lastChunk /\
                     (t < fst (TranscriberChunk.timestamp lastChunk))%Q) ->
  getCurrentUtteranceIndex (Some d) t dur
  = lookupLoop (TranscriberData.chunks d) t dur (length (TranscriberData.chunks d)) 0.
Proof.
  intros Hcase. cbn [getCurrentUtteranceIndex].
  destruct (last (TranscriberData.chunks d)) as [lastChunk|] eqn:Hlast.
  - destruct Hcase as [-> | (c & [= <-] & Hlt)]; [done|].
    apply num_lt_lt in Hlt. unfold num_lt in Hlt. apply negb_true_iff in Hlt.
    unfold num_ge. by rewrite Hlt, andb_false_r.
  - apply last_None in Hlast. by rewrite Hlast.
Qed.

(** X10 - what the lookup returns.  When the transcript is not busy, or
    [currentTime] is before the start of the last chunk, the lookup returns
    the first index whose range holds [currentTime], where the range of a
    chunk ends at its own end when it has one, else at the next start, else
    at the duration; it returns [-1] exactly when no chunk's range does. *)
Theorem lookup_first_own_range (d : TranscriberData.t) (t dur : Q) :
  (TranscriberData.isBusy d = false \/
   exists lastChunk, last (TranscriberData.chunks d) = Some lastChunk /\
                     (t < fst (TranscriberChunk.timestamp lastChunk))%Q) ->
  let chunks := TranscriberData.chunks d in
  let r := getCurrentUtteranceIndex (Some d) t dur in
  (r = -1 <-> forall j c, chunks !! j = Some c -> ~ inRange t c (lookupEnd chunks dur j c)) /\
  (forall i, r = Z.of_nat i ->
     exists c, chunks !! i = Some c /\ inRange t c (lookupEnd chunks dur i c) /\
       forall j c', (j < i)%nat -> chunks !! j = Some c' ->
                    ~ inRange t c' (lookupEnd chunks dur j c')).
Proof.
  intros Hcase chunks r. subst r.
  rewrite (getCurrentUtteranceIndex_scan d t dur Hcase). fold chunks.
  destruct (lookupLoop_spec chunks t dur (length chunks) 0)
    as [[Hr Hnone] | (j & c & Hr & _ & Hj & Hin & Hfirst)]; [lia| |]; rewrite Hr.
  - split; [|intros i; lia].
    split; [|done]. intros _ j c. apply Hnone. lia.
  - split.
    + split; [lia|]. intros Hnone. destruct (Hnone j c Hj Hin).
    + intros i Hi. assert (i = j) as -> by lia.
      exists c. split; [done|]. split; [done|].
      intros j' c' Hlt. apply Hfirst. lia.
Qed.

(** A busy transcript, 1 s, before the start of the last chunk. *)
Lemma lookup_first_own_range_witness :
  let d := TranscriberData.mk
             [TranscriberChunk.mk "Hello" (0%Q, Some 2%Q) None;
              TranscriberChunk.mk "world" (2%Q, None) None]
             "Helloworld" true false None in
  exists c, TranscriberData.chunks d !! 0%nat = Some c /\
            inRange 1%Q c (lookupEnd (TranscriberData.chunks d) 5%Q 0 c).
Proof.
  intros d.
  destruct (lookup_first_own_range d 1%Q 5%Q) as [_ Hidx].
  - right. eexists. split; [reflexivity|]. reflexivity.
  - destruct (Hidx 0%nat eq_refl) as (c & Hc & Hin & _). by exists c.
Defined.

Lemma isPlaying_same_index chunks t dur i j c c' :
  startsSorted chunks = true ->
  chunks !! i = Some c -> chunks !! j = Some c' ->
  isPlaying chunks t dur i c = true -> isPlaying chunks t dur j c' = true -> i = j.
Proof.
  intros Hsorted Hi Hj Pi Pj.
  destruct (Nat.lt_total i j) as [Hlt | [-> | Hlt]]; [|done|].
  - destruct (isPlaying_before chunks t dur i j c c' Hsorted Hlt Hi Hj Pi Pj).
  - destruct (isPlaying_before chunks t dur j i c' c Hsorted Hlt Hj Hi Pj Pi).
Qed.

Lemma inRange_end t c e1 e2 : (e1 == e2)%Q -> inRange t c e1 <-> inRange t c e2.
Proof. intros He. unfold inRange. by rewrite He. Qed.

(** With contiguous ends the lookup ends a chunk that has a successor at
    the next start. *)
Lemma lookupEnd_next chunks dur i c next :
  contiguous chunks -> chunks !! i = Some c -> chunks !! (i + 1)%nat = Some next ->
  (lookupEnd chunks dur i c == fst (TranscriberChunk.timestamp next))%Q.
Proof.
  intros Hcont Hi Hnext. unfold lookupEnd.
  destruct (snd (TranscriberChunk.timestamp c)) as [e|] eqn:He.
  - exact (Hcont i c next e Hi Hnext He).
  - rewrite Hnext. apply lookup_lt_Some in Hnext.
    destruct (Z.ltb_spec (Z.of_nat i) (Z.of_nat (length chunks) - 1)); [reflexivity|lia].
Qed.

(** With contiguous ends, and a last end that is not the falsy [0], the
    lookup and the render end every chunk at the same time. *)
Lemma lookupEnd_renderEnd chunks dur i c :
  contiguous chunks ->
  (forall l e, last chunks = Some l -> snd (TranscriberChunk.timestamp l) = Some e ->
               ~ (e == 0)%Q) ->
  chunks !! i = Some c ->
  (lookupEnd chunks dur i c == renderEnd chunks dur i c)%Q.
Proof.
  intros Hcont Hlast Hi.
  destruct (chunks !! (i + 1)%nat) as [next|] eqn:Hnext.
  - rewrite (renderEnd_next chunks dur i c next Hnext).
    by apply lookupEnd_next.
  - assert (Hlen : length chunks = S i).
    { apply lookup_ge_None in Hnext. apply lookup_lt_Some in Hi. lia. }
    unfold lookupEnd, renderEnd.
    destruct (Z.ltb_spec (Z.of_nat i) (Z.of_nat (length chunks) - 1)); [lia|].
    destruct (snd (TranscriberChunk.timestamp c)) as [e|] eqn:He; [|reflexivity].
    assert (Hl : last chunks = Some c).
    { rewrite last_lookup, Hlen. exact Hi. }
    destruct (Qeq_bool e 0) eqn:Hz; [|reflexivity].
    apply Qeq_bool_iff in Hz. destruct (Hlast c e Hl He Hz).
Qed.

(** X11 - the active chunk is the highlighted one.  On a transcript that
    is not busy, whose start times never decrease, whose stored ends agree
    with the next starts and whose last end is not 0, the lookup returns [i]
    exactly when chunk [i] is rendered as playing. *)
Theorem lookup_matches_highlight (d : TranscriberData.t) (t dur : Q) (i : nat) :
  TranscriberData.isBusy d = false ->
  startsSorted (TranscriberData.chunks d) = true ->
  contiguous (TranscriberData.chunks d) ->
  (forall l e, last (TranscriberData.chunks d) = Some l ->
               snd (TranscriberChunk.timestamp l) = Some e -> ~ (e == 0)%Q) ->
  getCurrentUtteranceIndex (Some d) t dur = Z.of_nat i <->
  exists c, TranscriberData.chunks d !! i = Some c /\
            isPlaying (TranscriberData.chunks d) t dur i c = true.
Proof.
  intros Hbusy Hsorted Hcont Hlast.
  set (chunks := TranscriberData.chunks d) in *.
  assert (Hsame : forall j c, chunks !! j = Some c ->
            inRange t c (lookupEnd chunks dur j c) <-> isPlaying chunks t dur j c = true).
  { intros j c Hj. rewrite isPlaying_inRange.
    apply inRange_end. by apply lookupEnd_renderEnd. }
  destruct (getCurrentUtteranceIndex_idle d t dur Hbusy)
    as [[Hr Hnone] | (j & c & Hr & Hj & Hin & Hfirst)].
  - rewrite Hr. split; [lia|]. intros (c & Hi & Pi).
    destruct (Hnone i c Hi). by apply Hsame.
  - rewrite Hr. split.
    + intros Heq. assert (j = i) as -> by lia. exists c. split; [done|]. by apply Hsame.
    + intros (c' & Hi & Pi). f_equal.
      apply Hsame in Hin; [|done].
      exact (isPlaying_same_index chunks t dur j i c c' Hsorted Hj Hi Hin Pi).
Qed.

Lemma contiguous_example :
  contiguous [TranscriberChunk.mk "Hello" (0%Q, Some 2%Q) None;
              TranscriberChunk.mk "world" (2%Q, None) None].
Proof.
  intros i c next e Hi Hnext He.
  destruct i as [|[|i]]; cbn in Hi, Hnext; simplify_eq. cbn in He. by simplify_eq.
Qed.

Lemma lookup_matches_highlight_witness :
  let chunks := [TranscriberChunk.mk "Hello" (0%Q, Some 2%Q) None;
                 TranscriberChunk.mk "world" (2%Q, None) None] in
  let d := TranscriberData.mk chunks "Helloworld" false false None in
  exists c, chunks !! 1%nat = Some c /\ isPlaying chunks 4%Q 5%Q 1 c = true.
Proof.
  intros chunks d.
  apply (lookup_matches_highlight d 4%Q 5%Q 1%nat).
  - reflexivity.
  - reflexivity.
  - apply contiguous_example.
  - intros l e [= <-] He. cbn in He. discriminate.
  - reflexivity.
Defined.

(** At the start of a chunk with a non-empty range, on a timeline in
    order, the lookup returns that chunk. *)
Lemma lookup_at_start d dur k c :
  TranscriberData.isBusy d = false ->
  startsSorted (TranscriberData.chunks d) = true ->
  contiguous (TranscriberData.chunks d) ->
  TranscriberData.chunks d !! k = Some c ->
  (fst (TranscriberChunk.timestamp c) < lookupEnd (TranscriberData.chunks d) dur k c)%Q ->
  getCurrentUtteranceIndex (Some d) (fst (TranscriberChunk.timestamp c)) dur = Z.of_nat k.
Proof.
  intros Hbusy Hsorted Hcont Hk Hopen.
  set (t := fst (TranscriberChunk.timestamp c)) in *.
  assert (Hhit : inRange t c (lookupEnd (TranscriberData.chunks d) dur k c)).
  { split; [apply Qle_refl|exact Hopen]. }
  destruct (getCurrentUtteranceIndex_idle d t dur Hbusy)
    as [[Hr Hnone] | (j & cj & Hr & Hj & Hin & Hfirst)].
  - destruct (Hnone k c Hk Hhit).
  - rewrite Hr. f_equal.
    destruct (Nat.lt_total j k) as [Hlt | [-> | Hlt]]; [|done|].
    + exfalso.
      destruct (lookup_lt_is_Some_2 (TranscriberData.chunks d) (j + 1)%nat) as [next Hnext].
      { apply lookup_lt_Some in Hk. lia. }
      destruct Hin as [_ Hin].
      rewrite (lookupEnd_next _ dur j cj next Hcont Hj Hnext) in Hin.
      assert (Hle := startsSorted_le _ (j + 1)%nat k next c Hsorted ltac:(lia) Hnext Hk).
      fold t in Hle. lra.
    + destruct (Hfirst k c Hlt Hk Hhit).
Qed.

(** X12 - a click makes the utterance the active one.  On a transcript
    that is not busy, in order and with contiguous ends, a click on chunk
    [i], whose range is not empty, calls [onSeek] with the chunk's start and
    sets [currentTime] to it, after which the lookup returns [i]. *)
Theorem click_activates_utterance
    (a : App.t) (d : TranscriberData.t) (i : nat) (c : TranscriberChunk.t) :
  transcribedData a = Some d ->
  TranscriberData.isBusy d = false ->
  startsSorted (TranscriberData.chunks d) = true ->
  contiguous (TranscriberData.chunks d) ->
  TranscriberData.chunks d !! i = Some c ->
  (fst (TranscriberChunk.timestamp c)
   < lookupEnd (TranscriberData.chunks d) (View.audioDuration (App.view a)) i c)%Q ->
  exists a',
    handleUtteranceClick i a = Some (a', [OnSeek (fst (TranscriberChunk.timestamp c))]) /\
    View.currentTime (App.view a') = fst (TranscriberChunk.timestamp c) /\
    App.hook a' = App.hook a /\
    getCurrentUtteranceIndex (transcribedData a') (View.currentTime (App.view a'))
      (View.audioDuration (App.view a')) = Z.of_nat i.
Proof.
  intros Hd Hbusy Hsorted Hcont Hi Hopen.
  unfold handleUtteranceClick. rewrite Hd, Hi.
  eexists. split; [reflexivity|]. split; [reflexivity|]. split; [reflexivity|].
  unfold transcribedData in *. cbn. rewrite Hd. by apply lookup_at_start.
Qed.

Lemma click_activates_utterance_witness :
  let d := TranscriberData.mk
             [TranscriberChunk.mk "Hello" (0%Q, Some 2%Q) None;
              TranscriberChunk.mk "world" (2%Q, None) None]
             "Helloworld" false false None in
  let a := App.mk (Hook.mk (Some d) false false [])
             (View.mk 0%Q None EmptyString 1%Q 5%Q None) in
  exists a', handleUtteranceClick 1 a = Some (a', [OnSeek 2%Q]) /\
    getCurrentUtteranceIndex (transcribedData a') (View.currentTime (App.view a'))
      (View.audioDuration (App.view a')) = 1.
Proof.
  intros d a.
  destruct (click_activates_utterance a d 1%nat
              (TranscriberChunk.mk "world" (2%Q, None) None))
    as (a' & Hclick & _ & _ & Hactive);
    [reflexivity|reflexivity|reflexivity|apply contiguous_example|reflexivity|reflexivity|].
  exists a'. split; [exact Hclick|exact Hactive].
Defined.

(** ** The window key listener *)

(** X13 - ArrowRight and ArrowLeft.  With chunk [i] active, ArrowRight
    calls [onSeek] with the start of chunk [i + 1] and nothing else, and does
    nothing when [i] is the last index; ArrowLeft calls [onSeek] with the
    start of chunk [i - 1], and does nothing at index 0.  Neither changes the
    state. *)
Theorem arrows_seek_neighbours
    (c : Closure.t) (e : KeyboardEvent.t) (a : App.t)
    (d : TranscriberData.t) (i : nat) :
  Closure.editingIndex c = None ->
  KeyboardEvent.targetIsInput e = false ->
  transcribedData a = Some d ->
  getCurrentUtteranceIndex (Some d) (Closure.currentTime c) (Closure.audioDuration c)
  = Z.of_nat i ->
  let chunks := TranscriberData.chunks d in
  (KeyboardEvent.key e = "ArrowRight" ->
   handleKeyDown c e a
   = (a, match chunks !! S i with
         | Some next => [OnSeek (fst (TranscriberChunk.timestamp next))]
         | None => []
         end)) /\
  (KeyboardEvent.key e = "ArrowLeft" ->
   handleKeyDown c e a
   = (a, match i with
         | O => []
         | S i' => match chunks !! i' with
                   | Some prev => [OnSeek (fst (TranscriberChunk.timestamp prev))]
                   | None => []
                   end
         end)).
Proof.
  intros Hidle Htarget Hd Hactive chunks.
  destruct (handleKeyDown_active c e a d i Hidle Htarget Hd Hactive) as [Hi ->].
  fold chunks in Hi |- *. unfold keySwitch.
  split; intros ->; cbn [String.eqb Ascii.eqb Bool.eqb].
  - replace (Z.to_nat (Z.of_nat i + 1)) with (S i) by lia.
    destruct (Z.ltb_spec (Z.of_nat i) (Z.of_nat (length chunks) - 1)) as [Hlt | Hge].
    + by destruct (chunks !! S i).
    + rewrite (lookup_ge_None_2 chunks (S i)); [reflexivity|lia].
  - destruct i as [|i']; [reflexivity|].
    replace (Z.to_nat (Z.of_nat (S i') - 1)) with i' by lia.
    destruct (Z.gtb_spec (Z.of_nat (S i')) 0); [|lia].
    destruct (lookup_lt_is_Some_2 chunks i') as [prev ->]; [lia|reflexivity].
Qed.

Lemma arrows_seek_neighbours_witness :
  let d := TranscriberData.mk
             [TranscriberChunk.mk "Hello" (0%Q, Some 2%Q) None;
              TranscriberChunk.mk "world" (2%Q, None) None]
             "Helloworld" false false None in
  let a := App.mk (Hook.mk (Some d) false false [])
             (View.mk 4%Q None EmptyString 1%Q 5%Q None) in
  keyDown (KeyboardEvent.mk "ArrowRight" false false) a = (a, []) /\
  keyDown (KeyboardEvent.mk "ArrowLeft" false false) a = (a, [OnSeek 0%Q]).
Proof.
  intros d a. unfold keyDown. split.
  - apply (arrows_seek_neighbours (capture (App.view a))
             (KeyboardEvent.mk "ArrowRight" false false) a d 1%nat
             eq_refl eq_refl eq_refl eq_refl). reflexivity.
  - apply (arrows_seek_neighbours (capture (App.view a))
             (KeyboardEvent.mk "ArrowLeft" false false) a d 1%nat
             eq_refl eq_refl eq_refl eq_refl). reflexivity.
Defined.

Lemma handleKeyDown_arrowRight c a d i next :
  Closure.editingIndex c = None ->
  transcribedData a = Some d ->
  getCurrentUtteranceIndex (Some d) (Closure.currentTime c) (Closure.audioDuration c)
  = Z.of_nat i ->
  TranscriberData.chunks d !! S i = Some next ->
  handleKeyDown c (KeyboardEvent.mk "ArrowRight" false false) a
  = (a, [OnSeek (fst (TranscriberChunk.timestamp next))]).
Proof.
  intros Hidle Hd Hactive Hnext.
  destruct (handleKeyDown_active c (KeyboardEvent.mk "ArrowRight" false false) a d i
              Hidle eq_refl Hd Hactive) as [_ ->].
  unfold keySwitch. cbn [KeyboardEvent.key String.eqb Ascii.eqb Bool.eqb].
  replace (Z.to_nat (Z.of_nat i + 1)) with (S i) by lia. rewrite Hnext.
  apply lookup_lt_Some in Hnext.
  destruct (Z.ltb_spec (Z.of_nat i) (Z.of_nat (length (TranscriberData.chunks d)) - 1));
    [reflexivity|lia].
Qed.

Lemma handleKeyDown_arrowLeft c a d i prev :
  Closure.editingIndex c = None ->
  transcribedData a = Some d ->
  getCurrentUtteranceIndex (Some d) (Closure.currentTime c) (Closure.audioDuration c)
  = Z.of_nat (S i) ->
  TranscriberData.chunks d !! i = Some prev ->
  handleKeyDown c (KeyboardEvent.mk "ArrowLeft" false false) a
  = (a, [OnSeek (fst (TranscriberChunk.timestamp prev))]).
Proof.
  intros Hidle Hd Hactive Hprev.
  destruct (handleKeyDown_active c (KeyboardEvent.mk "ArrowLeft" false false) a d (S i)
              Hidle eq_refl Hd Hactive) as [_ ->].
  unfold keySwitch. cbn [KeyboardEvent.key String.eqb Ascii.eqb Bool.eqb].
  replace (Z.to_nat (Z.of_nat (S i) - 1)) with i by lia. rewrite Hprev.
  destruct (Z.gtb_spec (Z.of_nat (S i)) 0); [reflexivity|lia].
Qed.

(** X14 - there and back.  On a transcript that is not busy, in order and
    with contiguous ends, with chunk [i] active and a next chunk whose range
    is not empty: ArrowRight seeks to the next start; once [currentTime] is
    that start, ArrowLeft seeks to the start of chunk [i]. *)
Theorem arrow_right_then_left
    (a : App.t) (d : TranscriberData.t) (i : nat) (c next : TranscriberChunk.t) :
  View.editingIndex (App.view a) = None ->
  transcribedData a = Some d ->
  TranscriberData.isBusy d = false ->
  startsSorted (TranscriberData.chunks d) = true ->
  contiguous (TranscriberData.chunks d) ->
  getCurrentUtteranceIndex (Some d) (View.currentTime (App.view a))
    (View.audioDuration (App.view a)) = Z.of_nat i ->
  TranscriberData.chunks d !! i = Some c ->
  TranscriberData.chunks d !! S i = Some next ->
  (fst (TranscriberChunk.timestamp next)
   < lookupEnd (TranscriberData.chunks d) (View.audioDuration (App.view a)) (S i) next)%Q ->
  let right := KeyboardEvent.mk "ArrowRight" false false in
  let left := KeyboardEvent.mk "ArrowLeft" false false in
  let seeked := handleTimeUpdate (fst (TranscriberChunk.timestamp next)) a in
  keyDown right a = (a, [OnSeek (fst (TranscriberChunk.timestamp next))]) /\
  keyDown left seeked = (seeked, [OnSeek (fst (TranscriberChunk.timestamp c))]).
Proof.
  intros Hidle Hd Hbusy Hsorted Hcont Hactive Hi Hnext Hopen right left seeked.
  unfold keyDown. split.
  - by apply (handleKeyDown_arrowRight (capture (App.view a)) a d i next).
  - assert (Hactive' :
      getCurrentUtteranceIndex (Some d) (Closure.currentTime (capture (App.view seeked)))
        (Closure.audioDuration (capture (App.view seeked))) = Z.of_nat (S i)).
    { cbn. by apply lookup_at_start. }
    by apply (handleKeyDown_arrowLeft (capture (App.view seeked)) seeked d i c).
Qed.

Lemma arrow_right_then_left_witness :
  let d := TranscriberData.mk
             [TranscriberChunk.mk "Hello" (0%Q, Some 2%Q) None;
              TranscriberChunk.mk "world" (2%Q, None) None]
             "Helloworld" false false None in
  let a := App.mk (Hook.mk (Some d) false false [])
             (View.mk 1%Q None EmptyString 1%Q 5%Q None) in
  keyDown (KeyboardEvent.mk "ArrowRight" false false) a = (a, [OnSeek 2%Q]) /\
  keyDown (KeyboardEvent.mk "ArrowLeft" false false) (handleTimeUpdate 2%Q a)
  = (handleTimeUpdate 2%Q a, [OnSeek 0%Q]).
Proof.
  intros d a.
  apply (arrow_right_then_left a d 0%nat
           (TranscriberChunk.mk "Hello" (0%Q, Some 2%Q) None)
           (TranscriberChunk.mk "world" (2%Q, None) None));
    try reflexivity.
  apply contiguous_example.
Defined.

Lemma handleKeyDown_space c a d i el :
  Closure.editingIndex c = None ->
  transcribedData a = Some d ->
  getCurrentUtteranceIndex (Some d) (Closure.currentTime c) (Closure.audioDuration c)
  = Z.of_nat i ->
  View.audioRef (App.view a) = Some el ->
  handleKeyDown c (KeyboardEvent.mk " " false false) a
  = (withView a (setPaused (App.view a) el (negb (HTMLAudioElement.paused el))),
     [PreventDefault; if HTMLAudioElement.paused el then Play else Pause]).
Proof.
  intros Hidle Hd Hactive Hel.
  destruct (handleKeyDown_active c (KeyboardEvent.mk " " false false) a d i
              Hidle eq_refl Hd Hactive) as [_ ->].
  unfold keySwitch. cbn [KeyboardEvent.key String.eqb Ascii.eqb Bool.eqb].
  rewrite Hel. by destruct (HTMLAudioElement.paused el).
Qed.

(** X15 - Space toggles.  With a chunk active and the audio element
    connected, Space calls [play] on a paused element and [pause] on a
    playing one; a second Space undoes the first: the state is what it was,
    and the two events called [play] and [pause] once each. *)
Theorem space_toggles_playback
    (c : Closure.t) (a : App.t) (d : TranscriberData.t) (i : nat)
    (el : HTMLAudioElement.t) :
  Closure.editingIndex c = None ->
  transcribedData a = Some d ->
  getCurrentUtteranceIndex (Some d) (Closure.currentTime c) (Closure.audioDuration c)
  = Z.of_nat i ->
  View.audioRef (App.view a) = Some el ->
  let space := KeyboardEvent.mk " " false false in
  let first := handleKeyDown c space a in
  let second := handleKeyDown c space (fst first) in
  snd first = [PreventDefault; if HTMLAudioElement.paused el then Play else Pause] /\
  snd second = [PreventDefault; if HTMLAudioElement.paused el then Pause else Play] /\
  fst second = a.
Proof.
  intros Hidle Hd Hactive Hel space first second. subst second first space.
  rewrite (handleKeyDown_space c a d i el Hidle Hd Hactive Hel).
  cbn [fst snd]. split; [reflexivity|].
  rewrite (handleKeyDown_space c
             (withView a (setPaused (App.view a) el (negb (HTMLAudioElement.paused el))))
             d i
             (HTMLAudioElement.mk (negb (HTMLAudioElement.paused el))
                (HTMLAudioElement.playbackRate el)) Hidle Hd Hactive eq_refl).
  cbn [fst snd HTMLAudioElement.paused]. split; [by destruct (HTMLAudioElement.paused el)|].
  destruct a as [h v], v as [ct ei et ps ad ar], el as [p rate].
  cbn in Hel. subst ar. cbn. by rewrite negb_involutive.
Qed.

Lemma space_toggles_playback_witness :
  let d := TranscriberData.mk
             [TranscriberChunk.mk "Hello" (0%Q, Some 2%Q) None]
             "Hello" false false None in
  let a := App.mk (Hook.mk (Some d) false false [])
             (View.mk 1%Q None EmptyString 1%Q 5%Q (Some (HTMLAudioElement.mk true 1%Q))) in
  let space := KeyboardEvent.mk " " false false in
  snd (keyDown space a) = [PreventDefault; Play] /\
  snd (keyDown space (fst (keyDown space a))) = [PreventDefault; Pause] /\
  fst (keyDown space (fst (keyDown space a))) = a.
Proof.
  intros d a space.
  apply (space_toggles_playback (capture (App.view a)) a d 0%nat
           (HTMLAudioElement.mk true 1%Q)); reflexivity.
Defined.

(** What the listener leaves alone, for every key and every closure. *)
Lemma handleKeyDown_frame c e a :
  let a' := fst (handleKeyDown c e a) in
  App.hook a' = App.hook a /\
  View.currentTime (App.view a') = View.currentTime (App.view a) /\
  View.audioDuration (App.view a') = View.audioDuration (App.view a) /\
  (View.editingIndex (App.view a) <> None -> View.editingIndex (App.view a') <> None).
Proof.
  unfold handleKeyDown.
  destruct (Closure.editingIndex c) as [k|] eqn:Hc; [by cbn|].
  destruct (KeyboardEvent.targetIsInput e); [by cbn|].
  destruct (transcribedData a) as [d|]; [|by cbn].
  destruct (length (TranscriberData.chunks d) =? 0)%nat; [by cbn|].
  destruct (_ =? -1); [by cbn|].
  unfold keySwitch. rewrite Hc.
  repeat case_match; by cbn.
Qed.

(** X16 - the listener does not edit.  For every key, whatever the
    listener has closed over, [handleKeyDown] leaves the hook's state (the
    transcript with its chunks, text and flags), [currentTime] and
    [audioDuration] unchanged; it changes the draft and the edit index only
    on Enter and the playback speed only on ArrowUp and ArrowDown. *)
Theorem keydown_leaves_transcript (c : Closure.t) (e : KeyboardEvent.t) (a : App.t) :
  let a' := fst (handleKeyDown c e a) in
  App.hook a' = App.hook a /\
  View.currentTime (App.view a') = View.currentTime (App.view a) /\
  View.audioDuration (App.view a') = View.audioDuration (App.view a) /\
  (KeyboardEvent.key e <> "Enter" ->
   View.editingIndex (App.view a') = View.editingIndex (App.view a) /\
   View.editText (App.view a') = View.editText (App.view a)) /\
  (KeyboardEvent.key e <> "ArrowUp" -> KeyboardEvent.key e <> "ArrowDown" ->
   View.playbackSpeed (App.view a') = View.playbackSpeed (App.view a)).
Proof.
  destruct (handleKeyDown_frame c e a) as (Hh & Ht & Hd & _).
  cbv zeta. split; [exact Hh|]. split; [exact Ht|]. split; [exact Hd|].
  unfold handleKeyDown.
  destruct (Closure.editingIndex c) as [k|] eqn:Hc; [by cbn|].
  destruct (KeyboardEvent.targetIsInput e); [by cbn|].
  destruct (transcribedData a) as [d|]; [|by cbn].
  destruct (length (TranscriberData.chunks d) =? 0)%nat; [by cbn|].
  destruct (_ =? -1); [by cbn|].
  unfold keySwitch. rewrite Hc.
  repeat case_match; cbn; split; try done;
    repeat match goal with
           | H : String.eqb _ _ = true |- _ => apply String.eqb_eq in H
           end; congruence.
Qed.

(** ** The edit session *)

(** When the textarea is on screen the handler has a result; it touches
    the hook only on a commit, and closes the session only on a commit or
    Escape. *)
Lemma handleEditKeyDown_cases e a :
  textareaRendered a = true ->
  exists a' calls, handleEditKeyDown e a = Some (a', calls) /\
    let commit := String.eqb (KeyboardEvent.key e) "Enter" && negb (KeyboardEvent.shiftKey e) in
    let escape := String.eqb (KeyboardEvent.key e) "Escape" in
    (commit = false -> App.hook a' = App.hook a) /\
    (commit = false -> escape = false -> a' = a /\ calls = []) /\
    (View.editingIndex (App.view a') = None -> commit = true \/ escape = true).
Proof.
  unfold textareaRendered, handleEditKeyDown, transcribedData.
  destruct (View.editingIndex (App.view a)) as [i|] eqn:Hi; [|discriminate].
  destruct (Hook.transcript (App.hook a)) as [d|] eqn:Hd; [|discriminate].
  intros Hlt. apply Nat.ltb_lt in Hlt.
  destruct (lookup_lt_is_Some_2 _ _ Hlt) as [old Hold]. rewrite Hold.
  destruct (String.eqb (KeyboardEvent.key e) "Enter" && negb (KeyboardEvent.shiftKey e));
    [|destruct (String.eqb (KeyboardEvent.key e) "Escape")];
    eexists _, _; (split; [reflexivity|]); cbn; repeat split; auto; try discriminate.
  congruence.
Qed.

(** X17 - keys in the textarea.  While the textarea is on screen,
    [handleEditKeyDown] always has a result.  A key that is neither Enter
    without shift nor Escape changes nothing and makes no call (it is left
    to the textarea); only Enter without shift changes the hook's state. *)
Theorem edit_keys_pass_through (e : KeyboardEvent.t) (a : App.t) :
  textareaRendered a = true ->
  exists a' calls, handleEditKeyDown e a = Some (a', calls) /\
    (~ (KeyboardEvent.key e = "Enter" /\ KeyboardEvent.shiftKey e = false) ->
     App.hook a' = App.hook a) /\
    (~ (KeyboardEvent.key e = "Enter" /\ KeyboardEvent.shiftKey e = false) ->
     KeyboardEvent.key e <> "Escape" ->
     a' = a /\ calls = []).
Proof.
  intros Hshown.
  destruct (handleEditKeyDown_cases e a Hshown) as (a' & calls & Hrun & Hhook & Hsame & _).
  exists a', calls. split; [exact Hrun|].
  assert (Hcommit : ~ (KeyboardEvent.key e = "Enter" /\ KeyboardEvent.shiftKey e = false) ->
            String.eqb (KeyboardEvent.key e) "Enter" && negb (KeyboardEvent.shiftKey e) = false).
  { intros Hno. apply andb_false_iff.
    destruct (String.eqb_spec (KeyboardEvent.key e) "Enter") as [Hk|]; [|by left].
    right. destruct (KeyboardEvent.shiftKey e); [done|]. destruct Hno. done. }
  split.
  - intros Hno. apply Hhook. by apply Hcommit.
  - intros Hno Hesc. apply Hsame; [by apply Hcommit|]. by apply String.eqb_neq.
Qed.

(** Shift+Enter with the textarea open on the only chunk. *)
Lemma edit_keys_pass_through_witness :
  let a := App.mk
             (Hook.mk (Some (TranscriberData.mk
                               [TranscriberChunk.mk "Hello" (0%Q, Some 2%Q) None]
                               "Hello" false false None)) false false [])
             (View.mk 1%Q (Some 0%nat) "Hel" 1%Q 5%Q None) in
  exists a' calls,
    handleEditKeyDown (KeyboardEvent.mk "Enter" true true) a = Some (a', calls) /\
    a' = a /\ calls = [].
Proof.
  intros a.
  destruct (edit_keys_pass_through (KeyboardEvent.mk "Enter" true true) a eq_refl)
    as (a' & calls & Hrun & _ & Hsame).
  exists a', calls. split; [exact Hrun|].
  apply Hsame; [intros [_ Hshift]|]; discriminate.
Defined.

(** X18 - how an edit session ends.  One event takes the application
    from an open edit session to none only if it is a key in the textarea,
    Enter without shift or Escape, with the edited index an index of a
    chunk; no key of the window listener, message or other event closes
    it. *)
Theorem edit_session_ends_in_textarea
    (ev : Event) (s s' : Sys.t) (calls : list Call) (i : nat) :
  step ev s = Some (s', calls) ->
  View.editingIndex (App.view (Sys.app s)) = Some i ->
  View.editingIndex (App.view (Sys.app s')) = None ->
  exists e d, ev = EvEditKeyDown e /\
    (KeyboardEvent.key e = "Escape" \/
     KeyboardEvent.key e = "Enter" /\ KeyboardEvent.shiftKey e = false) /\
    transcribedData (Sys.app s) = Some d /\
    (i < length (TranscriberData.chunks d))%nat.
Proof.
  intros Hstep Hopen Hclosed.
  destruct ev; cbn in Hstep.
  - (* EvKeyDown *)
    simplify_eq. cbn in Hclosed.
    destruct (handleKeyDown_frame (Sys.listener s) e (Sys.app s)) as (_ & _ & _ & Hkeep).
    destruct Hkeep; [by rewrite Hopen|done].
  - simplify_eq. cbn in Hclosed. congruence.
  - (* EvEditKeyDown *)
    destruct (textareaRendered (Sys.app s)) eqn:Hshown; [|discriminate].
    destruct (handleEditKeyDown_cases e (Sys.app s) Hshown)
      as (a' & calls' & Hrun & _ & _ & Hend).
    rewrite Hrun in Hstep. cbn in Hstep. simplify_eq. cbn in Hclosed.
    unfold textareaRendered in Hshown. rewrite Hopen in Hshown.
    destruct (transcribedData (Sys.app s)) as [d|]; [|discriminate].
    exists e, d. split; [reflexivity|]. split; [|split; [reflexivity|by apply Nat.ltb_lt]].
    destruct (Hend Hclosed) as [Hc | He].
    + right. apply andb_true_iff in Hc as [Hk Hs].
      split; [by apply String.eqb_eq|by apply negb_true_iff].
    + left. by apply String.eqb_eq.
  - destruct (textareaRendered (Sys.app s)); simplify_eq. cbn in Hclosed. congruence.
  - simplify_eq. cbn in Hclosed. congruence.
  - simplify_eq. cbn in Hclosed. congruence.
  - case_decide; [discriminate|]. unfold handleUtteranceClick in Hstep.
    repeat case_match; cbn in Hstep; simplify_eq. cbn in Hclosed. congruence.
  - simplify_eq. destruct found as [[[p time] duration]|]; cbn in Hclosed; congruence.
  - simplify_eq. cbn in Hclosed. unfold pausedChanged in Hclosed.
    case_match; cbn in Hclosed; congruence.
  - simplify_eq. cbn in Hclosed. congruence.
  - simplify_eq. cbn in Hclosed. congruence.
  - simplify_eq. cbn in Hclosed. congruence.
Qed.

Lemma edit_session_ends_in_textarea_witness :
  let a := App.mk
             (Hook.mk (Some (TranscriberData.mk
                               [TranscriberChunk.mk "Hello" (0%Q, Some 2%Q) None]
                               "Hello" false false None)) false false [])
             (View.mk 1%Q (Some 0%nat) "Hel" 1%Q 5%Q None) in
  let s := Sys.mk a (capture (App.view a)) in
  let ev := EvEditKeyDown (KeyboardEvent.mk "Escape" false true) in
  exists e d, ev = EvEditKeyDown e /\
    (KeyboardEvent.key e = "Escape" \/
     KeyboardEvent.key e = "Enter" /\ KeyboardEvent.shiftKey e = false) /\
    transcribedData a = Some d /\ (0 < length (TranscriberData.chunks d))%nat.
Proof.
  intros a s ev.
  apply (edit_session_ends_in_textarea ev s
           (Sys.mk (withView a (setEditing (App.view a) None "Hel")) (capture (App.view a)))
           [PreventDefault; StopPropagation] 0%nat); reflexivity.
Defined.

(** ** Edits and merges *)

(** X19 - a draft outlives a merge.  An update that arrives while chunk
    [i] is being edited, and still has a chunk at [i], leaves the edit index
    and the draft alone; the commit that follows stores the draft with the
    timestamp of the update's chunk and the edit mark, and recomputes the
    text from the merged chunks. *)
Theorem commit_after_merge
    (a : App.t) (i : nat) (m : Message) (text : string)
    (new : list EngineChunk.t) (ec : EngineChunk.t) (tgt : bool) :
  View.editingIndex (App.view a) = Some i ->
  m = MsgUpdate text new \/ m = MsgComplete text new ->
  new !! i = Some ec ->
  let merged := withHook a (onWorkerMessage m (App.hook a)) in
  App.view merged = App.view a /\
  exists a' calls d',
    handleEditKeyDown (KeyboardEvent.mk "Enter" false tgt) merged = Some (a', calls) /\
    transcribedData a' = Some d' /\
    TranscriberData.chunks d' !! i
    = Some (TranscriberChunk.mk (View.editText (App.view a)) (EngineChunk.timestamp ec)
              (Some true)) /\
    (forall j, j <> i ->
       TranscriberData.chunks d' !! j
       = mergeChunks (Hook.transcript (App.hook a)) new !! j) /\
    TranscriberData.text d'
    = join_empty (map TranscriberChunk.text (TranscriberData.chunks d')).
Proof.
  intros Hi Hm Hk merged. split; [reflexivity|].
  set (d1 := TranscriberData.mk (mergeChunks (Hook.transcript (App.hook a)) new) text
               (match m with MsgUpdate _ _ => true | _ => false end) false None).
  assert (Hd1 : transcribedData merged = Some d1).
  { subst merged d1. by destruct Hm as [-> | ->]. }
  assert (Hold : TranscriberData.chunks d1 !! i
                 = Some (TranscriberChunk.mk (EngineChunk.text ec) (EngineChunk.timestamp ec)
                           (Some (or_false (prevIsEdited (Hook.transcript (App.hook a)) i))))).
  { subst d1. cbn [TranscriberData.chunks]. by rewrite mergeChunks_lookup, Hk. }
  rewrite (handleEditKeyDown_commit merged d1 i _ tgt Hi Hd1 Hold).
  eexists _, _, _. split; [reflexivity|]. split; [reflexivity|].
  cbn [TranscriberData.chunks TranscriberData.text TranscriberChunk.timestamp].
  split; [|split; [|reflexivity]].
  - apply list_lookup_insert_eq. by eapply lookup_lt_Some.
  - intros j Hj. by rewrite list_lookup_insert_ne.
Qed.

Lemma commit_after_merge_witness :
  let a := App.mk
             (Hook.mk (Some (TranscriberData.mk
                               [TranscriberChunk.mk "Hello" (0%Q, None) None]
                               "Hello" true false None)) true false [])
             (View.mk 1%Q (Some 0%nat) "Hullo" 1%Q 5%Q None) in
  let merged :=
    withHook a (onWorkerMessage
                  (MsgUpdate "Hello world"
                     [EngineChunk.mk "Hello" (0%Q, Some 2%Q);
                      EngineChunk.mk " world" (2%Q, None)]) (App.hook a)) in
  exists a' calls d',
    handleEditKeyDown (KeyboardEvent.mk "Enter" false true) merged = Some (a', calls) /\
    transcribedData a' = Some d' /\
    TranscriberData.chunks d' !! 0%nat
    = Some (TranscriberChunk.mk "Hullo" (0%Q, Some 2%Q) (Some true)).
Proof.
  intros a merged.
  destruct (commit_after_merge a 0%nat
              (MsgUpdate "Hello world"
                 [EngineChunk.mk "Hello" (0%Q, Some 2%Q); EngineChunk.mk " world" (2%Q, None)])
              "Hello world"
              [EngineChunk.mk "Hello" (0%Q, Some 2%Q); EngineChunk.mk " world" (2%Q, None)]
              (EngineChunk.mk "Hello" (0%Q, Some 2%Q)) true eq_refl (or_introl eq_refl) eq_refl)
    as (_ & a' & calls & d' & Hrun & Hd' & Hchunk & _).
  exists a', calls, d'. split; [exact Hrun|]. split; [exact Hd'|exact Hchunk].
Defined.

(** X20 - a merge overwrites a committed text.  After a commit on chunk
    [i], an update that still has a chunk at [i] replaces the committed text
    and the timestamp by the update's; the chunk stays marked as edited. *)
Theorem merge_after_commit
    (a : App.t) (d : TranscriberData.t) (i : nat) (m : Message) (text : string)
    (new : list EngineChunk.t) (ec : EngineChunk.t) (tgt : bool) :
  View.editingIndex (App.view a) = Some i ->
  transcribedData a = Some d ->
  (i < length (TranscriberData.chunks d))%nat ->
  m = MsgUpdate text new \/ m = MsgComplete text new ->
  new !! i = Some ec ->
  exists a' calls d',
    handleEditKeyDown (KeyboardEvent.mk "Enter" false tgt) a = Some (a', calls) /\
    Hook.transcript (onWorkerMessage m (App.hook a')) = Some d' /\
    TranscriberData.text d' = text /\
    TranscriberData.chunks d' !! i
    = Some (TranscriberChunk.mk (EngineChunk.text ec) (EngineChunk.timestamp ec) (Some true)).
Proof.
  intros Hi Hd Hlt Hm Hk.
  destruct (lookup_lt_is_Some_2 _ _ Hlt) as [old Hold].
  rewrite (handleEditKeyDown_commit a d i old tgt Hi Hd Hold).
  destruct Hm as [-> | ->]; eexists _, _, _; (split; [reflexivity|]);
    cbn [onWorkerMessage Hook.transcript App.hook withView withTranscript];
    (split; [reflexivity|]); (split; [reflexivity|]);
    cbn [TranscriberData.chunks]; rewrite mergeChunks_lookup, Hk;
    cbn [fmap option_fmap option_map prevIsEdited TranscriberData.chunks];
    rewrite list_lookup_insert_eq by done; reflexivity.
Qed.

Lemma merge_after_commit_witness :
  let d := TranscriberData.mk
             [TranscriberChunk.mk "Hello" (0%Q, None) None] "Hello" true false None in
  let a := App.mk (Hook.mk (Some d) true false [])
             (View.mk 1%Q (Some 0%nat) "Hullo" 1%Q 5%Q None) in
  exists a' calls d',
    handleEditKeyDown (KeyboardEvent.mk "Enter" false true) a = Some (a', calls) /\
    Hook.transcript
      (onWorkerMessage (MsgComplete "Hello." [EngineChunk.mk "Hello." (0%Q, Some 2%Q)])
         (App.hook a')) = Some d' /\
    TranscriberData.text d' = "Hello." /\
    TranscriberData.chunks d' !! 0%nat
    = Some (TranscriberChunk.mk "Hello." (0%Q, Some 2%Q) (Some true)).
Proof.
  intros d a.
  apply (merge_after_commit a d 0%nat
           (MsgComplete "Hello." [EngineChunk.mk "Hello." (0%Q, Some 2%Q)])
           "Hello." [EngineChunk.mk "Hello." (0%Q, Some 2%Q)]
           (EngineChunk.mk "Hello." (0%Q, Some 2%Q)) true);
    [reflexivity|reflexivity|cbn; lia|by right|reflexivity].
Defined.

(** X21 - a commit keeps the timing.  A commit keeps the number of chunks
    and every timestamp, the [isBusy], [isModelLoading] and [error] of the
    transcript, the hook's flags and progress items, and of the component's
    state everything but the edit index. *)
Theorem commit_keeps_timing
    (a : App.t) (d : TranscriberData.t) (i : nat) (tgt : bool) :
  View.editingIndex (App.view a) = Some i ->
  transcribedData a = Some d ->
  (i < length (TranscriberData.chunks d))%nat ->
  exists a' calls d',
    handleEditKeyDown (KeyboardEvent.mk "Enter" false tgt) a = Some (a', calls) /\
    transcribedData a' = Some d' /\
    map TranscriberChunk.timestamp (TranscriberData.chunks d')
    = map TranscriberChunk.timestamp (TranscriberData.chunks d) /\
    length (TranscriberData.chunks d') = length (TranscriberData.chunks d) /\
    (TranscriberData.isBusy d', TranscriberData.isModelLoading d', TranscriberData.error d')
    = (TranscriberData.isBusy d, TranscriberData.isModelLoading d, TranscriberData.error d) /\
    (Hook.isBusy (App.hook a'), Hook.isModelLoading (App.hook a'),
     Hook.progressItems (App.hook a'))
    = (Hook.isBusy (App.hook a), Hook.isModelLoading (App.hook a),
       Hook.progressItems (App.hook a)) /\
    App.view a' = setEditing (App.view a) None (View.editText (App.view a)).
Proof.
  intros Hi Hd Hlt.
  destruct (lookup_lt_is_Some_2 _ _ Hlt) as [old Hold].
  rewrite (handleEditKeyDown_commit a d i old tgt Hi Hd Hold).
  eexists _, _, _. split; [reflexivity|]. split; [reflexivity|].
  cbn [TranscriberData.chunks]. split; [|split; [by rewrite length_insert|by cbn]].
  apply list_eq. intros j. rewrite !list_lookup_fmap.
  destruct (decide (j = i)) as [->|Hne].
  - by rewrite list_lookup_insert_eq, Hold.
  - by rewrite list_lookup_insert_ne.
Qed.

Lemma commit_keeps_timing_witness :
  let d := TranscriberData.mk
             [TranscriberChunk.mk "Hello" (0%Q, Some 2%Q) None;
              TranscriberChunk.mk " world" (2%Q, None) None]
             "Hello world" false false None in
  let a := App.mk (Hook.mk (Some d) false false [])
             (View.mk 1%Q (Some 1%nat) " whirl" 1%Q 5%Q None) in
  exists a' calls d',
    handleEditKeyDown (KeyboardEvent.mk "Enter" false true) a = Some (a', calls) /\
    transcribedData a' = Some d' /\
    map TranscriberChunk.timestamp (TranscriberData.chunks d')
    = [(0%Q, Some 2%Q); (2%Q, None)].
Proof.
  intros d a.
  destruct (commit_keeps_timing a d 1%nat true eq_refl eq_refl)
    as (a' & calls & d' & Hrun & Hd' & Hts & _); [cbn; lia|].
  exists a', calls, d'. split; [exact Hrun|]. split; [exact Hd'|exact Hts].
Defined.

(** ** What the render can show *)

Lemma onWorkerMessage_notLoading m h :
  (forall d, Hook.transcript h = Some d -> TranscriberData.isModelLoading d = false) ->
  forall d', Hook.transcript (onWorkerMessage m h) = Some d' ->
             TranscriberData.isModelLoading d' = false.
Proof.
  intros Hinv d'. destruct m; cbn; try apply Hinv; by intros [= <-].
Qed.

Lemma handleEditKeyDown_notLoading e a a' calls :
  handleEditKeyDown e a = Some (a', calls) ->
  showsModelLoading a = false -> showsModelLoading a' = false.
Proof.
  unfold handleEditKeyDown, showsModelLoading, transcribedData. intros Hrun Hinv.
  repeat case_match; simplify_eq; cbn in *; simplify_eq; try done.
Qed.

Lemma step_notLoading ev s s' calls :
  step ev s = Some (s', calls) ->
  showsModelLoading (Sys.app s) = false -> showsModelLoading (Sys.app s') = false.
Proof.
  intros Hstep Hinv.
  assert (Hsame : forall a', App.hook a' = App.hook (Sys.app s) -> showsModelLoading a' = false).
  { intros a' Hh. unfold showsModelLoading, transcribedData in *. by rewrite Hh. }
  assert (Hhook : forall h',
            (forall d', Hook.transcript h' = Some d' -> TranscriberData.isModelLoading d' = false) ->
            showsModelLoading (withHook (Sys.app s) h') = false).
  { intros h' Hh'. unfold showsModelLoading, transcribedData. cbn.
    destruct (Hook.transcript h') as [d'|] eqn:Hd'; [by apply Hh'|done]. }
  assert (Hcur : forall d, Hook.transcript (App.hook (Sys.app s)) = Some d ->
                           TranscriberData.isModelLoading d = false).
  { intros d Hd. unfold showsModelLoading, transcribedData in Hinv. by rewrite Hd in Hinv. }
  destruct ev; cbn in Hstep.
  - simplify_eq. cbn. apply Hsame.
    by destruct (handleKeyDown_frame (Sys.listener s) e (Sys.app s)) as (-> & _).
  - by simplify_eq.
  - destruct (textareaRendered (Sys.app s)); [|discriminate].
    destruct (handleEditKeyDown e (Sys.app s)) as [[a' calls']|] eqn:Hrun;
      cbn in Hstep; simplify_eq.
    cbn. by eapply handleEditKeyDown_notLoading.
  - destruct (textareaRendered (Sys.app s)); simplify_eq. by apply Hsame.
  - simplify_eq. by apply Hsame.
  - simplify_eq. by apply Hsame.
  - case_decide; [discriminate|]. unfold handleUtteranceClick in Hstep.
    repeat case_match; cbn in Hstep; simplify_eq. by apply Hsame.
  - simplify_eq. destruct found as [[[p time] duration]|]; by apply Hsame.
  - simplify_eq. cbn. apply Hsame. unfold pausedChanged. by case_match.
  - simplify_eq. cbn [Sys.app fst]. apply Hhook. by apply onWorkerMessage_notLoading.
  - simplify_eq. reflexivity.
  - simplify_eq. cbn [Sys.app fst]. apply Hhook. destruct hasAudio; cbn; [done|apply Hcur].
Qed.

(** X22 - the transcript is never "loading".  In every reachable state
    the [isModelLoading] flag of the transcript is false: the render never
    shows its model-loading indicator, and it shows the export buttons
    exactly when there is a transcript that is not busy. *)
Theorem transcript_never_model_loading (s : Sys.t) :
  reachable s ->
  showsModelLoading (Sys.app s) = false /\
  showsExport (Sys.app s)
  = match transcribedData (Sys.app s) with
    | Some d => negb (TranscriberData.isBusy d)
    | None => false
    end.
Proof.
  intros Hs.
  assert (Hinv : showsModelLoading (Sys.app s) = false).
  { induction Hs as [|ev s s' calls _ IH Hstep]; [reflexivity|].
    by eapply step_notLoading. }
  split; [exact Hinv|].
  unfold showsExport, showsModelLoading in *.
  destruct (transcribedData (Sys.app s)) as [d|]; [|reflexivity].
  by rewrite Hinv, andb_true_r.
Qed.

(** The state after "initiate" for a model file and a first partial
    update: the hook is loading a model, the transcript is not. *)
Lemma transcript_never_model_loading_witness :
  exists s, Hook.isModelLoading (App.hook (Sys.app s)) = true /\
            showsModelLoading (Sys.app s) = false.
Proof.
  pose (item := ProgressItem.mk "model.onnx" 0 0 100 "Xenova/whisper-tiny" "initiate").
  pose (s1 := Sys.mk (withHook (Sys.app initialSys)
                        (onWorkerMessage (MsgInitiate item) initialHook))
                (Sys.listener initialSys)).
  pose (s2 := Sys.mk (withHook (Sys.app s1)
                        (onWorkerMessage (MsgUpdate "Hi" [EngineChunk.mk "Hi" (0%Q, None)])
                           (App.hook (Sys.app s1))))
                (Sys.listener s1)).
  exists s2. split; [reflexivity|].
  apply (transcript_never_model_loading s2).
  apply (reachable_step (EvWorker (MsgUpdate "Hi" [EngineChunk.mk "Hi" (0%Q, None)])) s1 s2 []);
    [|reflexivity].
  apply (reachable_step (EvWorker (MsgInitiate item)) initialSys s1 []); [|reflexivity].
  apply reachable_init.
Defined.
